(** * Search AWS Icons: the icon catalog loader and the copy action

    A shallow embedding of [src/search-aws-icons.tsx] and the properties of
    its manifest parsing, de-duplication, classification, truncation and
    clipboard copy.

    Conventions of the embedding.
    - A JavaScript string is a [string]: a sequence of code units.  The model
      takes code units in the range 0..255, which covers the ASCII manifest
      and file names shipped with the extension.
    - Arrays are lists; an element mutated through an alias
      ([existingIcon.formats.push]) is a list update at the index found.
    - [async] functions are modelled by their outcome: [Ok v] for a promise
      resolved with [v], [Throw e] for a rejected one.  Code inside
      [try]/[catch] runs in a state-and-error monad whose state survives a
      throw, as the local variable [icons] does.
    - The file system, the clipboard and the toast surface belong to the
      host; they are oracles (file system) or recorded calls (clipboard,
      toasts).  [console.log] and [console.error] only write diagnostics and
      are left out. *)

From Stdlib Require Import String Ascii List Bool Arith Lia.
From stdpp Require Import base option list strings.

(** ** JavaScript string and array primitives used by the source *)

Module JS.

(** [s.startsWith(p)] *)
Definition startsWith (s p : string) : bool := String.prefix p s.

(** [s.includes(sub)]: [sub] occurs somewhere in [s]. *)
Fixpoint includes (s sub : string) : bool :=
  String.prefix sub s ||
  match s with
  | EmptyString => false
  | String _ s' => includes s' sub
  end.

(** [s.split(sep)] for a separator of one code unit, the only form the
    source uses (["\n"], ["/"], ["."]).  The empty string splits into one
    empty part. *)
Fixpoint split (sep : ascii) (s : string) : list string :=
  match s with
  | EmptyString => [EmptyString]
  | String c s' =>
      if Ascii.eqb c sep then EmptyString :: split sep s'
      else match split sep s' with
           | p :: ps => String c p :: ps
           | [] => [String c EmptyString]
           end
  end.

(** [parts.join(sep)] *)
Fixpoint join (sep : string) (parts : list string) : string :=
  match parts with
  | [] => EmptyString
  | [p] => p
  | p :: ps => p +:+ sep +:+ join sep ps
  end.

(** [parts.pop()]: the last element ([undefined], here [None], on an empty
    array) and the array left behind. *)
Definition pop {A} (parts : list A) : option A * list A :=
  (last parts, removelast parts).

(** Truthiness of a [string | undefined] value: [undefined] and the empty
    string are falsy. *)
Definition truthy (v : option string) : bool :=
  match v with
  | Some (String _ _) => true
  | _ => false
  end.

(** White space and line terminators removed by [trim], among the code
    units below 256: TAB, LF, VT, FF, CR, SP, NBSP. *)
Definition isWhiteSpace (c : ascii) : bool :=
  let n := nat_of_ascii c in
  ((9 <=? n) && (n <=? 13) || (n =? 32) || (n =? 160))%nat.

Fixpoint trimStart (s : string) : string :=
  match s with
  | String c s' => if isWhiteSpace c then trimStart s' else s
  | EmptyString => EmptyString
  end.

Fixpoint trimEnd (s : string) : string :=
  match s with
  | EmptyString => EmptyString
  | String c s' =>
      match trimEnd s' with
      | EmptyString => if isWhiteSpace c then EmptyString else String c EmptyString
      | t => String c t
      end
  end.

(** [s.trim()] *)
Definition trim (s : string) : string := trimEnd (trimStart s).

(** [s.slice(0, n)] for [0 <= n]. *)
Definition slice0 (n : nat) (s : string) : string := String.substring 0 n s.

Definition upperChar (c : ascii) : ascii :=
  let n := nat_of_ascii c in
  if ((97 <=? n) && (n <=? 122))%nat then ascii_of_nat (n - 32) else c.

(** [s.toUpperCase()] on ASCII text. *)
Fixpoint toUpperCase (s : string) : string :=
  match s with
  | EmptyString => EmptyString
  | String c s' => String (upperChar c) (toUpperCase s')
  end.

End JS.

(** ** Node's [path.join] (POSIX flavour; the host runs on macOS) *)

Module Path.

(** One step of [normalizeString]: a segment is dropped when empty or
    ["."]; [".."] removes the segment before it, unless there is none or
    it is itself [".."], in which case it is kept only if the path may
    climb above its root. *)
Definition pushSegment (allowAboveRoot : bool) (res : list string) (seg : string)
  : list string :=
  if bool_decide (seg = "") || bool_decide (seg = ".") then res
  else if bool_decide (seg = "..") then
    match last res with
    | Some l =>
        if bool_decide (l = "..") then
          (if allowAboveRoot then res ++ [".."] else res)
        else removelast res
    | None => if allowAboveRoot then [".."] else []
    end
  else res ++ [seg].

Definition normalizeString (path : string) (allowAboveRoot : bool) : string :=
  JS.join "/" (fold_left (pushSegment allowAboveRoot) (JS.split "/" path) []).

Definition endsWithSlash (path : string) : bool :=
  match last (list_ascii_of_string path) with
  | Some c => Ascii.eqb c "/"
  | None => false
  end.

Definition normalize (path : string) : string :=
  if bool_decide (path = "") then "."
  else
    let isAbsolute := JS.startsWith path "/" in
    let trailingSeparator := endsWithSlash path in
    let p := normalizeString path (negb isAbsolute) in
    if bool_decide (p = "") then
      (if isAbsolute then "/" else if trailingSeparator then "./" else ".")
    else
      let p := if trailingSeparator then p +:+ "/" else p in
      if isAbsolute then "/" +:+ p else p.

(** [path.join(...args)]: the non-empty arguments joined by ["/"], then
    normalised. *)
Definition join (args : list string) : string :=
  match filter (λ arg, arg ≠ "") args with
  | [] => "."
  | nonEmpty => normalize (JS.join "/" nonEmpty)
  end.

End Path.

(** ** Data model *)

(** The string-literal union of [AWSIcon.type]. *)
Inductive IconType : Type :=
  | Architecture
  | Resource
  | Category
  | ArchitectureGroup.

Definition typeString (t : IconType) : string :=
  match t with
  | Architecture => "Architecture"
  | Resource => "Resource"
  | Category => "Category"
  | ArchitectureGroup => "Architecture Group"
  end.

Global Instance IconType_eq_dec : EqDecision IconType.
Proof. solve_decision. Defined.

Record AWSIcon : Type := mkIcon {
  name : string;
  category : string;
  type : IconType;
  formats : list string;
  path : string
}.

Global Instance AWSIcon_eq_dec : EqDecision AWSIcon.
Proof. solve_decision. Defined.

Definition ASSET_DIR : string :=
  "Asset-Package_06072024.b5d9f0b1179c4a995a3f1e42042defabb0ba0fd2".

(** ** [getTypeFromCategory] and [extractIconData] *)

Definition getTypeFromCategory (category : string) : IconType :=
  if JS.includes category "Arch" then Architecture
  else if JS.includes category "Res" then Resource
  else if JS.includes category "Cat" then Category
  else ArchitectureGroup.

Definition extractIconData (item itemPath : string) : option AWSIcon * string :=
  let parts := JS.split "/" item in
  if (length parts <? 3)%nat then (None, "")
  else
    let category := nth 1 parts "" in
    let filename := nth (length parts - 1) parts "" in
    let nameParts := JS.split "." filename in
    let '(format, nameParts) := JS.pop nameParts in
    let name := JS.join "." nameParts in
    if negb (JS.truthy format) || negb (JS.truthy (Some name)) then (None, "")
    else
      let type := getTypeFromCategory category in
      (Some {| name := name; category := category; type := type;
               formats := []; path := itemPath |},
       default "" format).

(** ** Outcomes and the state-and-error monad *)

(** A Node error, identified by its code (["ENOENT"], ["EACCES"], ...). *)
Inductive Error : Type := NodeError (code : string).

Inductive result (A : Type) : Type :=
  | Ok (a : A)
  | Throw (e : Error).
Arguments Ok {A} a.
Arguments Throw {A} e.

(** A computation over a mutable state [S] that may throw; the state reached
    when it throws is kept. *)
Definition M (S A : Type) : Type := S → result A * S.

Global Instance M_ret {S} : MRet (M S) := λ A a s, (Ok a, s).

Global Instance M_bind {S} : MBind (M S) := λ A B f m s,
  match m s with
  | (Ok a, s') => f a s'
  | (Throw e, s') => (Throw e, s')
  end.

(** An awaited host call: its outcome, the state untouched. *)
Definition await {S A} (r : result A) : M S A := λ s, (r, s).

Definition get {S} : M S S := λ s, (Ok s, s).

Definition put {S} (s : S) : M S unit := λ _, (Ok tt, s).

(** [try { body } catch (error) { handler }] *)
Definition tryCatch {S A} (body : M S A) (handler : Error → M S A) : M S A := λ s,
  match body s with
  | (Ok a, s') => (Ok a, s')
  | (Throw e, s') => handler e s'
  end.

(** [for (const x of xs) { body }]; a [continue] is a [body] that returns
    early. *)
Fixpoint forOf {S A} (xs : list A) (body : A → M S unit) : M S unit :=
  match xs with
  | [] => mret tt
  | x :: xs' => body x ;; forOf xs' body
  end.

(** ** The file system, as the loader sees it *)

Record Stats : Type := { isFile : bool }.

Record FileSystem : Type := {
  access : string → result unit;
  readFile : string → result string;
  stat : string → result Stats
}.

(** ** [loadIconsData] *)

(** The predicate of [icons.find]: same name, category and type. *)
Definition sameIcon (icon i : AWSIcon) : Prop :=
  name i = name icon ∧ category i = category icon ∧ type i = type icon.

Global Instance sameIcon_dec icon i : Decision (sameIcon icon i).
Proof. unfold sameIcon. apply _. Defined.

(** [icon.formats.push(format)] *)
Definition pushFormat (icon : AWSIcon) (format : string) : AWSIcon :=
  {| name := name icon; category := category icon; type := type icon;
     formats := formats icon ++ [format]; path := path icon |}.

(** The lines of the manifest that are not blank. *)
Definition manifestItems (listFileContent : string) : list string :=
  filter (λ item, JS.trim item ≠ "") (JS.split "010" listFileContent).

Section Loader.

(** [__dirname] of the bundled command, and the file system. *)
Variable dirname : string.
Variable fs : FileSystem.

Definition baseDir : string := Path.join [dirname; "assets"; ASSET_DIR].

(** The body of the [for] loop, over the local array [icons]. *)
Definition loadItem (item : string) : M (list AWSIcon) unit :=
  if negb (JS.startsWith item ".") then mret tt
  else
    let itemPath := Path.join [baseDir; item] in
    itemStat ← await (stat fs itemPath);
    if isFile itemStat then
      let '(icon, format) := extractIconData item itemPath in
      match icon with
      | Some icon =>
          icons ← get;
          match list_find (sameIcon icon) icons with
          | Some (idx, existingIcon) =>
              if bool_decide (format ∈ formats existingIcon) then mret tt
              else put (<[idx := pushFormat existingIcon format]> icons)
          | None => put (icons ++ [pushFormat icon format])
          end
      | None => mret tt
      end
    else mret tt.

(** The [try] block. *)
Definition loadBody : M (list AWSIcon) unit :=
  await (access fs baseDir) ;;
  let listFilePath := Path.join [baseDir; "find.txt"] in
  listFileContent ← await (readFile fs listFilePath);
  let items := manifestItems listFileContent in
  forOf items loadItem.

Definition loadIconsData : result (list AWSIcon) :=
  fst ((tryCatch loadBody (λ error, mret tt) ;; get) []).

End Loader.

(** ** The command: grid items and the copy action *)

Inductive ToastStyle : Type := Success | Failure.

Record ToastOptions : Type := {
  style : ToastStyle;
  title : string;
  message : string
}.

(** The format argument of the copy action, ["png" | "svg"]. *)
Inductive CopyFormat : Type := png | svg.

Definition formatString (format : CopyFormat) : string :=
  match format with
  | png => "png"
  | svg => "svg"
  end.

(** Calls received by the host, in order. *)
Inductive HostCall : Type :=
  | FsAccess (path : string)
  | ClipboardCopy (file : string)
  | ShowToast (options : ToastOptions).

(** What a copy action can touch: the system clipboard (the file reference
    it holds, if any), the calls made so far, and the catalog held in the
    component state. *)
Record Host : Type := {
  clipboard : option string;
  calls : list HostCall;
  catalog : list AWSIcon
}.

Definition call (c : HostCall) (h : Host) : Host :=
  {| clipboard := clipboard h; calls := calls h ++ [c]; catalog := catalog h |}.

Definition truncate (str : string) (maxLength : nat) : string :=
  if (String.length str <=? maxLength)%nat then str
  else JS.slice0 maxLength str +:+ "...".

Section Command.

Variable fs : FileSystem.
(** Outcome of [Clipboard.copy] for a file reference. *)
Variable clipboardCopy : string → result unit.
(** What the system clipboard holds after a [Clipboard.copy] that threw,
    given the file reference and what the clipboard held before: the source
    does not say, so it is left to the host. *)
Variable clipboardAfterFailure : string → option string → option string.

Definition fsAccess (p : string) : M Host unit := λ h,
  (access fs p, call (FsAccess p) h).

Definition Clipboard_copy (file : string) : M Host unit := λ h,
  let h := call (ClipboardCopy file) h in
  match clipboardCopy file with
  | Ok _ => (Ok tt, {| clipboard := Some file; calls := calls h; catalog := catalog h |})
  | Throw e =>
      (Throw e, {| clipboard := clipboardAfterFailure file (clipboard h);
                   calls := calls h; catalog := catalog h |})
  end.

Definition showToast (options : ToastOptions) : M Host unit := λ h,
  (Ok tt, call (ShowToast options) h).

(** The [try] block of the copy action. *)
Definition copyAttempt (icon : AWSIcon) (format : CopyFormat) : M Host unit :=
  fsAccess (path icon) ;;
  Clipboard_copy (path icon) ;;
  showToast {| style := Success;
               title := JS.toUpperCase (formatString format) +:+ " icon copied to clipboard";
               message := "Paste it wherever you need." |}.

(** Its [catch] block. *)
Definition copyFailed (format : CopyFormat) (error : Error) : M Host unit :=
  showToast {| style := Failure;
               title := "Failed to copy " +:+ JS.toUpperCase (formatString format)
                        +:+ " icon to clipboard";
               message := "The icon file might not exist or be accessible." |}.

Definition copyIconToClipboard (icon : AWSIcon) (format : CopyFormat) : M Host unit :=
  tryCatch (copyAttempt icon format) (copyFailed format).

(** One [Grid.Item]: what it displays and the entries of its action
    panel. *)
Record GridItem : Type := {
  key : string;
  source : string;
  tooltip : string;
  itemTitle : string;
  subtitle : string;
  actions : list (string * M Host unit)
}.

Definition gridItem (icon : AWSIcon) : GridItem :=
  {| key := typeString (type icon) +:+ "-" +:+ name icon +:+ "-" +:+ category icon;
     source := path icon;
     tooltip := name icon +:+ " (" +:+ typeString (type icon) +:+ ")";
     itemTitle := truncate (name icon) 20;
     subtitle := typeString (type icon) +:+ " - " +:+ category icon;
     actions := [("Copy PNG", copyIconToClipboard icon png);
                 ("Copy SVG", copyIconToClipboard icon svg)] |}.

End Command.

(** ** Specification-side notions *)

(** [sub] occurs in [s] as a run of consecutive code units. *)
Definition Contains (s sub : string) : Prop :=
  ∃ pre post, s = pre +:+ sub +:+ post.

(** The identity of a logical icon. *)
Definition iconKey (i : AWSIcon) : string * string * IconType :=
  (name i, category i, type i).

(** The distinct elements of a list, each at its first occurrence. *)
Fixpoint firstOccurrences {A} `{EqDecision A} (l : list A) : list A :=
  match l with
  | [] => []
  | x :: l' => x :: filter (λ y, y ≠ x) (firstOccurrences l')
  end.

(** The merge of one parsed entry into the array: the state change of the
    loop body once [extractIconData] has produced an icon. *)
Definition addEntry (icons : list AWSIcon) (e : AWSIcon * string) : list AWSIcon :=
  match list_find (sameIcon e.1) icons with
  | Some (idx, existingIcon) =>
      if bool_decide (e.2 ∈ formats existingIcon) then icons
      else <[idx := pushFormat existingIcon e.2]> icons
  | None => icons ++ [pushFormat e.1 e.2]
  end.

Section Manifest.

Variable dirname : string.
Variable fs : FileSystem.

(** A marked line whose [stat] throws. *)
Definition statFails (item : string) : bool :=
  JS.startsWith item "." &&
  match stat fs (Path.join [baseDir dirname; item]) with
  | Throw _ => true
  | Ok _ => false
  end.

(** A valid file entry: a marked line that names a file and parses; it
    contributes the icon and the format parsed from it. *)
Definition entryOf (item : string) : option (AWSIcon * string) :=
  if JS.startsWith item "." then
    match stat fs (Path.join [baseDir dirname; item]) with
    | Ok st =>
        if isFile st then
          match extractIconData item (Path.join [baseDir dirname; item]) with
          | (Some icon, format) => Some (icon, format)
          | (None, _) => None
          end
        else None
    | Throw _ => None
    end
  else None.

(** The lines the loop gets through: those before the first marked line
    whose [stat] throws. *)
Fixpoint processed (items : list string) : list string :=
  match items with
  | [] => []
  | item :: items' => if statFails item then [] else item :: processed items'
  end.

(** The non-blank lines of the manifest, when the asset directory and
    the manifest can be read. *)
Definition manifest : option (list string) :=
  match access fs (baseDir dirname) with
  | Ok _ =>
      match readFile fs (Path.join [baseDir dirname; "find.txt"]) with
      | Ok listFileContent => Some (manifestItems listFileContent)
      | Throw _ => None
      end
  | Throw _ => None
  end.

(** The valid file entries the load pass handles, in manifest order. *)
Definition loadedEntries : list (AWSIcon * string) :=
  omap entryOf (processed (default [] manifest)).

End Manifest.

(** The key of a parsed entry, and the entries of one key. *)
Definition entryKey (e : AWSIcon * string) : string * string * IconType :=
  iconKey e.1.

Definition entriesOf (k : string * string * IconType)
    (es : list (AWSIcon * string)) : list (AWSIcon * string) :=
  filter (λ e, entryKey e = k) es.

(** What the array holds after merging entries [es], one after the other,
    into the empty array: the keys in order of first occurrence, and for each
    record the formats of its entries in order of first occurrence and the
    path of its first entry. *)
Definition merged (es : list (AWSIcon * string)) (icons : list AWSIcon) : Prop :=
  iconKey <$> icons = firstOccurrences (entryKey <$> es) ∧
  ∀ (i : nat) (r : AWSIcon),
    icons !! i = Some r →
    formats r = firstOccurrences ((entriesOf (iconKey r) es).*2) ∧
    ∃ e, head (entriesOf (iconKey r) es) = Some e ∧ path r = path e.1.

(** A host call with the title of its toast erased. *)
Definition eraseTitle (c : HostCall) : HostCall :=
  match c with
  | ShowToast options =>
      ShowToast {| style := style options; title := ""; message := message options |}
  | _ => c
  end.

(** The toasts among some host calls. *)
Definition toastsOf (cs : list HostCall) : list ToastOptions :=
  omap (λ c, match c with ShowToast options => Some options | _ => None end) cs.

(** ** The component: its state, the fetch on mount, and the view *)

Module Component.

(** The three [useState] cells of [Command]. *)
Record State : Type := {
  icons : list AWSIcon;
  isLoading : bool;
  error : option string
}.

(** The state of the first render. *)
Definition initial : State :=
  {| icons := []; isLoading := true; error := None |}.

Definition setIcons (iconsData : list AWSIcon) (s : State) : State :=
  {| icons := iconsData; isLoading := isLoading s; error := error s |}.

Definition setIsLoading (b : bool) (s : State) : State :=
  {| icons := icons s; isLoading := b; error := error s |}.

Definition setError (e : string) (s : State) : State :=
  {| icons := icons s; isLoading := isLoading s; error := Some e |}.

(** What [Command] returns: the error list, with the toast shown while
    rendering it, or the grid. *)
Inductive View : Type :=
  | ErrorView (toast : ToastOptions) (emptyTitle description : string)
  | GridView (loading : bool) (searchBarPlaceholder : string) (items : list GridItem).

Section Render.

Variable dirname : string.
Variable fs : FileSystem.
Variable clipboardCopy : string → result unit.
Variable clipboardAfterFailure : string → option string → option string.

(** [fetchIcons], run once by the effect: [try]/[catch]/[finally] around the
    awaited [loadIconsData]. *)
Definition fetchIcons (s : State) : State :=
  let s :=
    match loadIconsData dirname fs with
    | Ok iconsData => setIcons iconsData s
    | Throw err => setError "Failed to load icons data" s
    end in
  setIsLoading false s.

Definition render (s : State) : View :=
  let grid :=
    GridView (isLoading s) "Search AWS icons..."
      (gridItem fs clipboardCopy clipboardAfterFailure <$> icons s) in
  match error s with
  | Some e =>
      if JS.truthy (Some e) then
        ErrorView {| style := Failure; title := "Error"; message := e |} "Error" e
      else grid
  | None => grid
  end.

End Render.

End Component.

(** ** Sample data for the closed examples *)

Module Sample.

Definition dirname : string := "/ext".

Definition base : string := baseDir dirname.

Definition ec2 : AWSIcon :=
  {| name := "Amazon-EC2"; category := "Res_Compute"; type := Resource;
     formats := ["png"; "svg"];
     path := base +:+ "/Res_Compute/Amazon-EC2.png" |}.

Definition beanstalk : AWSIcon :=
  {| name := "Arch_AWS-Elastic-Beanstalk_64"; category := "Arch_Compute";
     type := Architecture; formats := ["png"];
     path := base +:+ "/Arch_Compute/64/Arch_AWS-Elastic-Beanstalk_64.png" |}.

(** A disk holding a manifest and the files it lists, except those whose
    path mentions ["missing"]; paths under a [Dir] folder are
    directories. *)
Definition fsWith (manifest : string) : FileSystem :=
  {| access := λ p,
       if JS.includes p "missing" then Throw (NodeError "ENOENT") else Ok tt;
     readFile := λ p,
       if bool_decide (p = base +:+ "/find.txt") then Ok manifest
       else Throw (NodeError "ENOENT");
     stat := λ p,
       if JS.includes p "missing" then Throw (NodeError "ENOENT")
       else Ok {| isFile := negb (JS.includes p "Dir") |} |}.

(** A disk without the asset directory. *)
Definition fsEmpty : FileSystem :=
  {| access := λ p, Throw (NodeError "ENOENT");
     readFile := λ p, Throw (NodeError "ENOENT");
     stat := λ p, Throw (NodeError "ENOENT") |}.

Definition clipboardOk (file : string) : result unit := Ok tt.

(** A host whose failed copies leave the clipboard as it was. *)
Definition clipboardKept (file : string) (held : option string) : option string :=
  held.

Definition host0 : Host := {| clipboard := None; calls := []; catalog := [ec2] |}.

End Sample.

(** ** Facts about the string primitives *)

Lemma app_cons (c : ascii) (s t : string) : String c s +:+ t = String c (s +:+ t).
Proof. reflexivity. Qed.

Lemma app_empty_l (s : string) : "" +:+ s = s.
Proof. reflexivity. Qed.

Lemma app_length_s (a b : string) :
  String.length (a +:+ b) = String.length a + String.length b.
Proof. induction a as [|x a IH]; [done | rewrite app_cons; simpl; by rewrite IH]. Qed.

Lemma prefix_spec (p s : string) :
  String.prefix p s = true ↔ ∃ post, s = p +:+ post.
Proof.
  revert s. induction p as [|c p IH]; intros s.
  - split; [intros _; by exists s | by destruct s].
  - destruct s as [|d s]; simpl.
    + split; [done | intros [post H]; discriminate H].
    + destruct (ascii_dec c d) as [->|Hne].
      * rewrite IH. split; intros [post H]; exists post.
        -- by rewrite app_cons, <- H.
        -- rewrite app_cons in H. by injection H.
      * split; [done | intros [post H]; rewrite app_cons in H; congruence].
Qed.

Lemma includes_cons (c : ascii) (s sub : string) :
  JS.includes (String c s) sub = String.prefix sub (String c s) || JS.includes s sub.
Proof. reflexivity. Qed.

Lemma includes_empty (sub : string) :
  JS.includes "" sub = String.prefix sub "" || false.
Proof. reflexivity. Qed.

Lemma includes_spec (s sub : string) : JS.includes s sub = true ↔ Contains s sub.
Proof.
  split.
  - induction s as [|c s IH];
      rewrite ?includes_cons, ?includes_empty, orb_true_iff, prefix_spec.
    + intros [[post H]|H]; [|done]. by exists "", post.
    + intros [[post H]|H].
      * by exists "", post.
      * destruct (IH H) as (pre & post & ->). by exists (String c pre), post.
  - intros (pre & post & ->). induction pre as [|c pre IH].
    + rewrite app_empty_l.
      assert (String.prefix sub (sub +:+ post) = true) as Hp
        by (apply prefix_spec; by exists post).
      destruct (sub +:+ post);
        rewrite ?includes_cons, ?includes_empty; by rewrite Hp.
    + rewrite app_cons, includes_cons, IH. apply orb_true_r.
Qed.

Global Instance Contains_dec (s sub : string) : Decision (Contains s sub).
Proof.
  destruct (JS.includes s sub) eqn:E.
  - left. by apply includes_spec.
  - right. intros H%includes_spec. congruence.
Defined.

Lemma split_nonempty (sep : ascii) (s : string) : JS.split sep s ≠ [].
Proof.
  induction s as [|c s IH]; simpl; [done|].
  destruct (Ascii.eqb c sep); [done|]. by destruct (JS.split sep s).
Qed.

Lemma join_cons (sep p : string) (ps : list string) :
  ps ≠ [] → JS.join sep (p :: ps) = p +:+ sep +:+ JS.join sep ps.
Proof. by destruct ps. Qed.

Lemma join_cons_char (sep : string) (c : ascii) (p : string) (ps : list string) :
  JS.join sep (String c p :: ps) = String c (JS.join sep (p :: ps)).
Proof. by destruct ps. Qed.

(** Splitting loses nothing: the parts joined by the separator give the
    string back. *)
Lemma join_split (sep : ascii) (s : string) :
  JS.join (String sep "") (JS.split sep s) = s.
Proof.
  induction s as [|c s IH]; simpl; [done|].
  pose proof (split_nonempty sep s) as Hn.
  destruct (Ascii.eqb_spec c sep) as [->|Hne].
  - by rewrite join_cons, IH.
  - destruct (JS.split sep s) as [|p ps]; [done|].
    by rewrite join_cons_char, IH.
Qed.

(** No part contains the separator. *)
Lemma split_no_sep (sep : ascii) (s p : string) :
  p ∈ JS.split sep s → ¬ Contains p (String sep "").
Proof.
  revert p. induction s as [|c s IH]; intros p; simpl.
  - intros ->%list_elem_of_singleton (pre & post & H).
    by destruct pre.
  - destruct (Ascii.eqb_spec c sep) as [->|Hne].
    + intros [->|Hin]%elem_of_cons; [|by apply IH].
      intros (pre & post & H). by destruct pre.
    + pose proof (split_nonempty sep s) as Hn.
      destruct (JS.split sep s) as [|q qs]; [done|].
      intros [->|Hin]%elem_of_cons.
      * intros (pre & post & H). destruct pre as [|d pre].
        -- rewrite app_empty_l, app_cons in H. congruence.
        -- rewrite app_cons in H. injection H as H1 H2.
           apply (IH q); [left|]. by exists pre, post.
      * apply IH. by right.
Qed.

Lemma substring_0_spec (n : nat) (s : string) :
  n ≤ String.length s →
  ∃ rest, s = String.substring 0 n s +:+ rest ∧ String.length (String.substring 0 n s) = n.
Proof.
  revert s. induction n as [|n IH]; intros s Hn.
  - exists s. by destruct s.
  - destruct s as [|c s]; simpl in *; [lia|].
    destruct (IH s) as (rest & Hs & Hl); [lia|].
    exists rest. split; [by rewrite app_cons, <- Hs | by rewrite Hl].
Qed.

Lemma pop_snoc {A} (l : list A) (x : A) : JS.pop (l ++ [x]) = (Some x, l).
Proof. unfold JS.pop. by rewrite last_snoc, removelast_last. Qed.

Lemma nth_last (parts : list string) (d : string) :
  parts ≠ [] → last parts = Some (nth (length parts - 1) parts d).
Proof.
  intros Hne. rewrite last_lookup, nth_lookup.
  replace (Init.Nat.pred (length parts)) with (length parts - 1) by lia.
  destruct (parts !! (length parts - 1)) eqn:E; [done|].
  apply lookup_ge_None in E. destruct parts; simpl in *; [done | lia].
Qed.

Lemma split_snoc (sep : ascii) (s : string) :
  ∃ init lastPart, JS.split sep s = init ++ [lastPart].
Proof.
  destruct (JS.split sep s) as [|p ps] eqn:E using rev_ind.
  - by apply split_nonempty in E.
  - eauto.
Qed.

Lemma truthy_Some (s : string) : JS.truthy (Some s) = bool_decide (s ≠ "").
Proof. by destruct s. Qed.

(** What [extractIconData] returns in terms of the parts of the file name. *)
Lemma extractIconData_parts (item itemPath : string) (nameParts : list string)
    (format : string) :
  3 ≤ length (JS.split "/" item) →
  JS.split "." (nth (length (JS.split "/" item) - 1) (JS.split "/" item) "")
    = nameParts ++ [format] →
  extractIconData item itemPath =
    if bool_decide (format = "" ∨ JS.join "." nameParts = "") then (None, "")
    else (Some {| name := JS.join "." nameParts;
                  category := nth 1 (JS.split "/" item) "";
                  type := getTypeFromCategory (nth 1 (JS.split "/" item) "");
                  formats := [];
                  path := itemPath |}, format).
Proof.
  intros Hlen Hsplit. unfold extractIconData.
  destruct (Nat.ltb_spec (length (JS.split "/" item)) 3) as [?|_]; [lia|].
  rewrite Hsplit, pop_snoc, !truthy_Some. simpl.
  repeat case_bool_decide; simpl; try done; tauto.
Qed.

(** ** Classification *)

(** C2: the type of a category is decided by case-sensitive substring
    containment, tried in the order "Arch", "Res", "Cat": the first that
    occurs wins and gives Architecture, Resource, Category; when none occurs
    the type is Architecture Group.  In particular "Arch-Group-1" is an
    Architecture, and lower-case spellings do not match. *)
Theorem getTypeFromCategory_first_match (category : string) :
  (getTypeFromCategory category = Architecture ↔ Contains category "Arch") ∧
  (getTypeFromCategory category = Resource ↔
     ¬ Contains category "Arch" ∧ Contains category "Res") ∧
  (getTypeFromCategory category = Category ↔
     ¬ Contains category "Arch" ∧ ¬ Contains category "Res" ∧
     Contains category "Cat") ∧
  (getTypeFromCategory category = ArchitectureGroup ↔
     ¬ Contains category "Arch" ∧ ¬ Contains category "Res" ∧
     ¬ Contains category "Cat") ∧
  getTypeFromCategory "Arch-Group-1" = Architecture ∧
  typeString (getTypeFromCategory "Group-1") = "Architecture Group" ∧
  getTypeFromCategory "arch_res_cat" = ArchitectureGroup.
Proof.
  unfold getTypeFromCategory. rewrite <- !includes_spec.
  destruct (JS.includes category "Arch"), (JS.includes category "Res"),
    (JS.includes category "Cat"); repeat split; intros; try done;
    intuition congruence.
Qed.

Lemma getTypeFromCategory_first_match_witness :
  (¬ Contains "Res_Compute" "Arch" ∧ Contains "Res_Compute" "Res") ∧
  getTypeFromCategory "Res_Compute" = Resource.
Proof.
  assert (¬ Contains "Res_Compute" "Arch" ∧ Contains "Res_Compute" "Res") as H.
  { rewrite <- !includes_spec. vm_compute. split; congruence. }
  split; [exact H|].
  exact (proj2 (proj1 (proj2 (getTypeFromCategory_first_match "Res_Compute"))) H).
Defined.

(** ** Parsing one manifest entry *)

Lemma forOf_cons {S A} (x : A) (xs : list A) (body : A → M S unit) (s : S) :
  forOf (x :: xs) body s =
    match body x s with
    | (Ok _, s') => forOf xs body s'
    | (Throw e, s') => (Throw e, s')
    end.
Proof. reflexivity. Qed.

(** An entry that [extractIconData] rejects leaves the array as it is and
    the loop goes on, whatever kind of file its path is. *)
Lemma loadItem_rejected (dirname : string) (fs : FileSystem) (item : string)
    (icons : list AWSIcon) (st : Stats) :
  (∀ itemPath, (extractIconData item itemPath).1 = None) →
  stat fs (Path.join [baseDir dirname; item]) = Ok st →
  loadItem dirname fs item icons = (Ok tt, icons).
Proof.
  intros Hrej Hstat. unfold loadItem.
  destruct (JS.startsWith item "."); [|done]. simpl.
  unfold mbind, M_bind, await. rewrite Hstat.
  destruct (isFile st); [|done].
  specialize (Hrej (Path.join [baseDir dirname; item])).
  destruct (extractIconData item _) as [[i|] f]; by simplify_eq/=.
Qed.

(** C3, as the code has it: in an entry of at least three segments the file
    name is the last segment; split on ".", its last part is the format and
    the parts before it, joined by "." again, are the name.  When the format
    or the name is empty the entry yields no icon, and the loop body, once
    the [stat] of the entry has returned, leaves the array as it was and the
    loop carries on with the next entry; otherwise the icon has that name,
    the second segment as category and the type of that category.
    "Amazon-EC2.png" under "Res_Compute" gives name "Amazon-EC2", format
    "png", type Resource. *)
Theorem extractIconData_name_and_format :
  (∀ (item itemPath : string) (parts : list string),
     JS.split "/" item = parts →
     3 ≤ length parts →
     ∃ (filename : string) (nameParts : list string) (format : string),
       last parts = Some filename ∧
       JS.split "." filename = nameParts ++ [format] ∧
       ¬ Contains format "." ∧
       filename = JS.join "." (nameParts ++ [format]) ∧
       let name := JS.join "." nameParts in
       (format = "" ∨ name = "" →
          extractIconData item itemPath = (None, "") ∧
          ∀ dirname fs icons st rest,
            stat fs (Path.join [baseDir dirname; item]) = Ok st →
            loadItem dirname fs item icons = (Ok tt, icons) ∧
            forOf (item :: rest) (loadItem dirname fs) icons
              = forOf rest (loadItem dirname fs) icons) ∧
       (format ≠ "" → name ≠ "" →
          extractIconData item itemPath =
            (Some {| name := name;
                     category := nth 1 parts "";
                     type := getTypeFromCategory (nth 1 parts "");
                     formats := [];
                     path := itemPath |}, format))) ∧
  (∀ itemPath,
     extractIconData "./Res_Compute/Amazon-EC2.png" itemPath =
       (Some {| name := "Amazon-EC2"; category := "Res_Compute"; type := Resource;
                formats := []; path := itemPath |}, "png")).
Proof.
  split; [|done].
  intros item itemPath parts <- Hlen.
  set (parts := JS.split "/" item) in *.
  set (filename := nth (length parts - 1) parts "").
  destruct (split_snoc "." filename) as (nameParts & format & Hsplit).
  exists filename, nameParts, format.
  assert (∀ p, extractIconData item p =
    if bool_decide (format = "" ∨ JS.join "." nameParts = "") then (None, "")
    else (Some {| name := JS.join "." nameParts; category := nth 1 parts "";
                  type := getTypeFromCategory (nth 1 parts "");
                  formats := []; path := p |}, format)) as Hext.
  { intros p. by apply extractIconData_parts. }
  split_and!.
  - apply nth_last. intros E. rewrite E in Hlen. simpl in Hlen. lia.
  - done.
  - apply (split_no_sep "." filename). rewrite Hsplit.
    apply elem_of_app. right. by left.
  - rewrite <- Hsplit. symmetry. apply (join_split "." filename).
  - intros name. subst name. split.
    + intros Hempty.
      assert (∀ p, extractIconData item p = (None, "")) as Hnone.
      { intros p. rewrite Hext. by rewrite bool_decide_eq_true_2 by done. }
      split; [done|].
      intros dirname fs icons st rest Hstat.
      assert (loadItem dirname fs item icons = (Ok tt, icons)) as Hstep.
      { eapply loadItem_rejected; [|done]. intros p. by rewrite Hnone. }
      split; [done|]. by rewrite forOf_cons, Hstep.
    + intros Hf Hn. rewrite Hext. by rewrite bool_decide_eq_false_2 by tauto.
Qed.

Lemma extractIconData_name_and_format_witness :
  extractIconData "./Res_Compute/README" "/ext/README" = (None, "") ∧
  extractIconData "./Arch_Storage/64/Arch_Amazon-S3.v2.svg" "/ext/s3" =
    (Some {| name := "Arch_Amazon-S3.v2"; category := "Arch_Storage";
             type := Architecture; formats := []; path := "/ext/s3" |}, "svg").
Proof.
  split.
  - destruct (proj1 extractIconData_name_and_format
                "./Res_Compute/README" "/ext/README" _ eq_refl)
      as (filename & nameParts & format & Hlast & Hsplit & _ & _ & Hrej & _).
    { vm_compute. lia. }
    vm_compute in Hlast. injection Hlast as <-.
    change (JS.split "." "README") with ([] ++ ["README"]) in Hsplit.
    apply app_inj_tail in Hsplit as [<- <-].
    exact (proj1 (Hrej (or_intror eq_refl))).
  - destruct (proj1 extractIconData_name_and_format
                "./Arch_Storage/64/Arch_Amazon-S3.v2.svg" "/ext/s3" _ eq_refl)
      as (filename & nameParts & format & Hlast & Hsplit & _ & _ & _ & Hacc).
    { vm_compute. lia. }
    vm_compute in Hlast. injection Hlast as <-.
    change (JS.split "." "Arch_Amazon-S3.v2.svg")
      with (["Arch_Amazon-S3"; "v2"] ++ ["svg"]) in Hsplit.
    apply app_inj_tail in Hsplit as [<- <-].
    apply Hacc; done.
Defined.

(** An entry of three segments whose format is empty and whose file is
    missing: [stat] throws before the parse, the loop ends there, and the
    valid entry after it is not loaded, where C3 has the entry discarded
    without aborting the load. *)
Lemma empty_format_entry_aborts_load :
  length (JS.split "/" "./Res_Compute/missing.") = 3 ∧
  JS.split "." "missing." = ["missing"; ""] ∧
  extractIconData "./Res_Compute/missing."
    (Path.join [Sample.base; "./Res_Compute/missing."]) = (None, "") ∧
  loadItem Sample.dirname (Sample.fsWith "") "./Res_Compute/missing." []
    = (Throw (NodeError "ENOENT"), []) ∧
  loadIconsData Sample.dirname (Sample.fsWith "./Res_Compute/missing.
./Res_Compute/Amazon-EC2.png") = Ok [] ∧
  loadIconsData Sample.dirname (Sample.fsWith "./Res_Compute/Amazon-EC2.png")
    = Ok [{| name := "Amazon-EC2"; category := "Res_Compute"; type := Resource;
             formats := ["png"];
             path := Path.join [Sample.base; "./Res_Compute/Amazon-EC2.png"] |}].
Proof. split_and!; reflexivity. Qed.

(** ** The load pass as a fold *)

Section LoadPass.

Variable dirname : string.
Variable fs : FileSystem.

Lemma loadItem_unmarked (item : string) (icons : list AWSIcon) :
  JS.startsWith item "." = false →
  loadItem dirname fs item icons = (Ok tt, icons).
Proof. intros H. unfold loadItem. by rewrite H. Qed.

Lemma loadItem_stat_throws (item : string) (icons : list AWSIcon) (e : Error) :
  JS.startsWith item "." = true →
  stat fs (Path.join [baseDir dirname; item]) = Throw e →
  loadItem dirname fs item icons = (Throw e, icons).
Proof.
  intros Hm Hs. unfold loadItem. rewrite Hm. simpl.
  unfold mbind, M_bind, await. by rewrite Hs.
Qed.

Lemma loadItem_stat_ok (item : string) (icons : list AWSIcon) (st : Stats) :
  JS.startsWith item "." = true →
  stat fs (Path.join [baseDir dirname; item]) = Ok st →
  loadItem dirname fs item icons =
    (Ok tt, from_option (addEntry icons) icons (entryOf dirname fs item)).
Proof.
  intros Hm Hs. unfold loadItem, entryOf. rewrite Hm. simpl.
  unfold mbind, M_bind, await. rewrite Hs.
  destruct (isFile st); [|done].
  destruct (extractIconData item _) as [[icon|] format]; [|done].
  unfold get, addEntry. simpl.
  destruct (list_find (sameIcon icon) icons) as [[idx existingIcon]|]; [|done].
  by case_bool_decide.
Qed.

(** A line whose [stat] does not throw is handled without a throw, and
    changes the array only by merging the entry it contributes. *)
Lemma loadItem_handled (item : string) (icons : list AWSIcon) :
  statFails dirname fs item = false →
  loadItem dirname fs item icons =
    (Ok tt, from_option (addEntry icons) icons (entryOf dirname fs item)).
Proof.
  unfold statFails. intros H.
  destruct (JS.startsWith item ".") eqn:Hm.
  - destruct (stat fs (Path.join [baseDir dirname; item])) as [st|e] eqn:Hs;
      [|done]. by eapply loadItem_stat_ok.
  - rewrite loadItem_unmarked by done. unfold entryOf. by rewrite Hm.
Qed.

(** A marked line whose [stat] throws ends the loop body with that
    error, the array untouched. *)
Lemma loadItem_aborts (item : string) (icons : list AWSIcon) :
  statFails dirname fs item = true →
  ∃ e, stat fs (Path.join [baseDir dirname; item]) = Throw e ∧
       loadItem dirname fs item icons = (Throw e, icons).
Proof.
  unfold statFails. intros [Hm Hs]%andb_true_iff.
  destruct (stat fs (Path.join [baseDir dirname; item])) as [st|e] eqn:E;
    [done|]. exists e. split; [done|]. by apply loadItem_stat_throws.
Qed.

(** The array after the loop: the entries of the lines gone through,
    merged in order. *)
Lemma forOf_loadItem_state (items : list string) (icons : list AWSIcon) :
  (forOf items (loadItem dirname fs) icons).2 =
    fold_left addEntry (omap (entryOf dirname fs) (processed dirname fs items)) icons.
Proof.
  revert icons. induction items as [|item items IH]; intros icons; [done|].
  rewrite forOf_cons. simpl processed.
  destruct (statFails dirname fs item) eqn:Hf.
  - destruct (loadItem_aborts item icons Hf) as (e & _ & ->). done.
  - rewrite loadItem_handled by done. rewrite IH. simpl omap.
    by destruct (entryOf dirname fs item).
Qed.

(** The loop ends normally exactly when no line aborts it. *)
Lemma forOf_loadItem_outcome (items : list string) (icons : list AWSIcon) :
  (forOf items (loadItem dirname fs) icons).1 = Ok tt ↔
  processed dirname fs items = items.
Proof.
  revert icons. induction items as [|item items IH]; intros icons; [done|].
  rewrite forOf_cons. simpl processed.
  destruct (statFails dirname fs item) eqn:Hf.
  - destruct (loadItem_aborts item icons Hf) as (e & _ & ->). done.
  - rewrite loadItem_handled by done. rewrite IH.
    split; [by intros -> | by intros [=]].
Qed.

Lemma loadIconsData_unfold :
  loadIconsData dirname fs =
    Ok match access fs (baseDir dirname) with
       | Ok _ =>
           match readFile fs (Path.join [baseDir dirname; "find.txt"]) with
           | Ok listFileContent =>
               (forOf (manifestItems listFileContent) (loadItem dirname fs) []).2
           | Throw _ => []
           end
       | Throw _ => []
       end.
Proof.
  unfold loadIconsData, loadBody, tryCatch, mbind, M_bind, await, get. simpl.
  destruct (access fs (baseDir dirname)) as [[]|e]; [|done].
  destruct (readFile fs _) as [content|e]; [|done].
  by destruct (forOf _ _ _) as [[[]|e] icons].
Qed.

(** The catalog is the merge of the valid file entries the pass handles. *)
Lemma loadIconsData_entries :
  loadIconsData dirname fs = Ok (fold_left addEntry (loadedEntries dirname fs) []).
Proof.
  rewrite loadIconsData_unfold. unfold loadedEntries, manifest.
  destruct (access fs (baseDir dirname)) as [[]|e]; [|done].
  destruct (readFile fs _) as [content|e]; [|done].
  by rewrite forOf_loadItem_state.
Qed.

End LoadPass.

Lemma forOf_app {S A} (xs ys : list A) (body : A → M S unit) (s : S) :
  forOf (xs ++ ys) body s =
    match forOf xs body s with
    | (Ok _, s') => forOf ys body s'
    | (Throw e, s') => (Throw e, s')
    end.
Proof.
  revert s. induction xs as [|x xs IH]; intros s; [done|].
  rewrite <- app_comm_cons, !forOf_cons.
  destruct (body x s) as [[[]|e] s']; [apply IH | done].
Qed.

Lemma processed_all (dirname : string) (fs : FileSystem) (items : list string) :
  Forall (λ item, statFails dirname fs item = false) items →
  processed dirname fs items = items.
Proof.
  induction 1 as [|item items Hitem _ IH]; [done|].
  simpl. by rewrite Hitem, IH.
Qed.

Lemma extractIconData_short (item itemPath : string) :
  length (JS.split "/" item) < 3 → extractIconData item itemPath = (None, "").
Proof.
  intros H. unfold extractIconData.
  by destruct (Nat.ltb_spec (length (JS.split "/" item)) 3); [|lia].
Qed.

(** ** Failures of the asset directory and the manifest *)

(** C4: [loadIconsData] never throws.  When the asset directory cannot be
    accessed, or the manifest cannot be read (it is missing or unreadable),
    or the manifest has no line that is not blank (it is empty), the catalog
    returned is empty. *)
Theorem loadIconsData_never_throws (dirname : string) (fs : FileSystem) :
  (∃ icons, loadIconsData dirname fs = Ok icons) ∧
  (∀ e, access fs (baseDir dirname) = Throw e →
        loadIconsData dirname fs = Ok []) ∧
  (∀ e, readFile fs (Path.join [baseDir dirname; "find.txt"]) = Throw e →
        loadIconsData dirname fs = Ok []) ∧
  (∀ listFileContent,
     readFile fs (Path.join [baseDir dirname; "find.txt"]) = Ok listFileContent →
     manifestItems listFileContent = [] →
     loadIconsData dirname fs = Ok []) ∧
  manifestItems "" = [].
Proof.
  rewrite loadIconsData_unfold. split_and!.
  - eauto.
  - by intros e ->.
  - intros e ->. by destruct (access fs _).
  - intros content -> ->. by destruct (access fs _).
  - done.
Qed.

Lemma loadIconsData_never_throws_witness :
  loadIconsData Sample.dirname Sample.fsEmpty = Ok [] ∧
  loadIconsData Sample.dirname (Sample.fsWith "") = Ok [].
Proof.
  pose proof (loadIconsData_never_throws Sample.dirname Sample.fsEmpty)
    as (_ & Hdir & _).
  pose proof (loadIconsData_never_throws Sample.dirname (Sample.fsWith ""))
    as (_ & _ & _ & Hblank & _).
  split.
  - apply (Hdir (NodeError "ENOENT")). reflexivity.
  - apply (Hblank ""); reflexivity.
Defined.

(** ** Entries that are too shallow *)

(** C5, as the code has it: an entry of fewer than three segments yields no
    icon and the loop body leaves the array as it was; when the [stat] of the
    entry does not throw, the loop goes on with the entries after it, so the
    catalog is the one of the manifest without the entry.  The loader returns
    normally in every case. *)
Theorem short_path_skipped (dirname : string) (fs : FileSystem) (item : string) :
  length (JS.split "/" item) < 3 →
  (∀ itemPath, extractIconData item itemPath = (None, "")) ∧
  entryOf dirname fs item = None ∧
  (∀ icons, (loadItem dirname fs item icons).2 = icons) ∧
  (statFails dirname fs item = false →
     ∀ icons rest,
       loadItem dirname fs item icons = (Ok tt, icons) ∧
       forOf (item :: rest) (loadItem dirname fs) icons
         = forOf rest (loadItem dirname fs) icons) ∧
  (∀ pre post,
     manifest dirname fs = Some (pre ++ item :: post) →
     ∃ icons,
       loadIconsData dirname fs = Ok icons ∧
       (statFails dirname fs item = false →
          icons = (forOf (pre ++ post) (loadItem dirname fs) []).2)).
Proof.
  intros Hshort.
  assert (∀ p, extractIconData item p = (None, "")) as Hnone
    by (intros p; by apply extractIconData_short).
  assert (entryOf dirname fs item = None) as Hentry.
  { unfold entryOf. destruct (JS.startsWith item "."); [|done].
    destruct (stat fs _) as [st|e]; [|done].
    destruct (isFile st); [|done]. by rewrite Hnone. }
  assert (statFails dirname fs item = false →
          ∀ icons, loadItem dirname fs item icons = (Ok tt, icons)) as Hskip.
  { intros Hf icons. rewrite loadItem_handled by done. by rewrite Hentry. }
  split_and!; [done..| | |].
  - intros icons. destruct (statFails dirname fs item) eqn:Hf.
    + by destruct (loadItem_aborts dirname fs item icons Hf) as (e & _ & ->).
    + by rewrite Hskip.
  - intros Hf icons rest. split; [by apply Hskip|].
    by rewrite forOf_cons, Hskip.
  - intros pre post Hm. rewrite loadIconsData_unfold. eexists. split; [done|].
    intros Hf. unfold manifest in Hm.
    destruct (access fs (baseDir dirname)) as [[]|e]; [|done].
    destruct (readFile fs _) as [content|e]; [|done].
    injection Hm as ->.
    rewrite !forOf_app.
    destruct (forOf pre _ _) as [[[]|e] icons]; [|done].
    by rewrite forOf_cons, Hskip.
Qed.

Lemma short_path_skipped_witness :
  loadIconsData Sample.dirname
    (Sample.fsWith "./Res_Compute/Amazon-EC2.png
./short.png
./Res_Compute/Amazon-EC2.svg") = Ok [Sample.ec2].
Proof.
  destruct (short_path_skipped Sample.dirname
              (Sample.fsWith "./Res_Compute/Amazon-EC2.png
./short.png
./Res_Compute/Amazon-EC2.svg") "./short.png") as (_ & _ & _ & _ & Hload).
  { vm_compute. lia. }
  destruct (Hload ["./Res_Compute/Amazon-EC2.png"] ["./Res_Compute/Amazon-EC2.svg"])
    as (icons & -> & Hicons); [reflexivity|].
  rewrite Hicons by reflexivity. reflexivity.
Defined.

(** An entry of two segments whose file is missing: [stat] throws before
    the segments are counted, the loop ends there, and the valid entry after
    it is not loaded, where C5 has the entry skipped without aborting the
    load. *)
Lemma short_missing_entry_aborts_load :
  length (JS.split "/" "./missing.png") = 2 ∧
  loadItem Sample.dirname (Sample.fsWith "") "./missing.png" []
    = (Throw (NodeError "ENOENT"), []) ∧
  loadIconsData Sample.dirname (Sample.fsWith "./missing.png
./Res_Compute/Amazon-EC2.png") = Ok [] ∧
  loadIconsData Sample.dirname (Sample.fsWith "./Res_Compute/Amazon-EC2.png")
    = Ok [{| name := "Amazon-EC2"; category := "Res_Compute"; type := Resource;
             formats := ["png"];
             path := Path.join [Sample.base; "./Res_Compute/Amazon-EC2.png"] |}].
Proof. split_and!; reflexivity. Qed.

(** ** A [stat] failure in the middle of the pass *)

(** C10: when the [stat] of a marked line throws during the pass, the loop
    ends there and [loadIconsData] still returns normally; the catalog is the
    array as the lines before that one left it, which need not be empty. *)
Theorem stat_failure_aborts_loop :
  (∀ (dirname : string) (fs : FileSystem) (listFileContent : string)
     (pre post : list string) (item : string) (e : Error),
     access fs (baseDir dirname) = Ok tt →
     readFile fs (Path.join [baseDir dirname; "find.txt"]) = Ok listFileContent →
     manifestItems listFileContent = pre ++ item :: post →
     Forall (λ earlier, statFails dirname fs earlier = false) pre →
     JS.startsWith item "." = true →
     stat fs (Path.join [baseDir dirname; item]) = Throw e →
     forOf pre (loadItem dirname fs) [] =
       (Ok tt, fold_left addEntry (omap (entryOf dirname fs) pre) []) ∧
     forOf (pre ++ item :: post) (loadItem dirname fs) [] =
       (Throw e, fold_left addEntry (omap (entryOf dirname fs) pre) []) ∧
     loadIconsData dirname fs =
       Ok (fold_left addEntry (omap (entryOf dirname fs) pre) [])) ∧
  (∃ (dirname : string) (fs : FileSystem) (item : string) (post : list string),
     manifest dirname fs = Some ("./Res_Compute/Amazon-EC2.png" :: item :: post) ∧
     post ≠ [] ∧
     statFails dirname fs item = true ∧
     loadIconsData dirname fs =
       Ok [{| name := "Amazon-EC2"; category := "Res_Compute"; type := Resource;
              formats := ["png"];
              path := Path.join [baseDir dirname; "./Res_Compute/Amazon-EC2.png"] |}]).
Proof.
  split.
  - intros dirname fs content pre post item e Hacc Hread Hitems Hpre Hm Hs.
    assert (forOf pre (loadItem dirname fs) [] =
            (Ok tt, fold_left addEntry (omap (entryOf dirname fs) pre) [])) as Hrun.
    { pose proof (forOf_loadItem_state dirname fs pre []) as Hst.
      pose proof (proj2 (forOf_loadItem_outcome dirname fs pre [])
                    (processed_all dirname fs pre Hpre)) as Hout.
      rewrite (processed_all dirname fs pre Hpre) in Hst.
      destruct (forOf pre _ _) as [r icons]. simpl in *. by subst. }
    split_and!; [done| |].
    + rewrite forOf_app, Hrun, forOf_cons.
      by rewrite (loadItem_stat_throws dirname fs item _ e).
    + rewrite loadIconsData_unfold, Hacc, Hread, Hitems.
      rewrite forOf_app, Hrun, forOf_cons.
      by rewrite (loadItem_stat_throws dirname fs item _ e).
  - exists Sample.dirname,
      (Sample.fsWith "./Res_Compute/Amazon-EC2.png
./Res_Compute/missing.png
./Res_Compute/Amazon-EC2.svg"),
      "./Res_Compute/missing.png", ["./Res_Compute/Amazon-EC2.svg"].
    by vm_compute.
Qed.

Lemma stat_failure_aborts_loop_witness :
  loadIconsData Sample.dirname
    (Sample.fsWith "./Arch_Compute/64/Arch_AWS-Elastic-Beanstalk_64.png
Arch_Compute
./Arch_Compute/64/missing.svg
./Res_Compute/Amazon-EC2.png") = Ok [Sample.beanstalk].
Proof.
  destruct (proj1 stat_failure_aborts_loop Sample.dirname
    (Sample.fsWith "./Arch_Compute/64/Arch_AWS-Elastic-Beanstalk_64.png
Arch_Compute
./Arch_Compute/64/missing.svg
./Res_Compute/Amazon-EC2.png")
    "./Arch_Compute/64/Arch_AWS-Elastic-Beanstalk_64.png
Arch_Compute
./Arch_Compute/64/missing.svg
./Res_Compute/Amazon-EC2.png"
    ["./Arch_Compute/64/Arch_AWS-Elastic-Beanstalk_64.png"; "Arch_Compute"]
    ["./Res_Compute/Amazon-EC2.png"]
    "./Arch_Compute/64/missing.svg" (NodeError "ENOENT")) as (_ & _ & ->);
    try reflexivity.
  repeat constructor.
Defined.

(** ** The copy action *)

Section CopyAction.

Variable fs : FileSystem.
Variable clipboardCopy : string → result unit.
Variable clipboardAfterFailure : string → option string → option string.

Lemma copyIconToClipboard_access_throws (icon : AWSIcon) (format : CopyFormat)
    (h : Host) (e : Error) :
  access fs (path icon) = Throw e →
  copyAttempt fs clipboardCopy clipboardAfterFailure icon format h
    = (Throw e, call (FsAccess (path icon)) h).
Proof.
  intros Hacc. unfold copyAttempt, mbind, M_bind, fsAccess. by rewrite Hacc.
Qed.

Lemma copyIconToClipboard_copied (icon : AWSIcon) (format : CopyFormat) (h : Host) :
  access fs (path icon) = Ok tt →
  clipboardCopy (path icon) = Ok tt →
  copyIconToClipboard fs clipboardCopy clipboardAfterFailure icon format h =
    (Ok tt,
     {| clipboard := Some (path icon);
        calls := calls h ++
          [FsAccess (path icon); ClipboardCopy (path icon);
           ShowToast {| style := Success;
                        title := JS.toUpperCase (formatString format)
                                 +:+ " icon copied to clipboard";
                        message := "Paste it wherever you need." |}];
        catalog := catalog h |}).
Proof.
  intros Hacc Hcopy.
  unfold copyIconToClipboard, tryCatch, copyAttempt, mbind, M_bind, fsAccess,
    Clipboard_copy, showToast, call.
  rewrite Hacc. simpl. rewrite Hcopy. simpl.
  by rewrite <- !app_assoc.
Qed.

Lemma copyIconToClipboard_copy_throws (icon : AWSIcon) (format : CopyFormat)
    (h : Host) (e : Error) :
  access fs (path icon) = Ok tt →
  clipboardCopy (path icon) = Throw e →
  copyIconToClipboard fs clipboardCopy clipboardAfterFailure icon format h =
    (Ok tt,
     {| clipboard := clipboardAfterFailure (path icon) (clipboard h);
        calls := calls h ++
          [FsAccess (path icon); ClipboardCopy (path icon);
           ShowToast {| style := Failure;
                        title := "Failed to copy "
                                 +:+ JS.toUpperCase (formatString format)
                                 +:+ " icon to clipboard";
                        message := "The icon file might not exist or be accessible." |}];
        catalog := catalog h |}).
Proof.
  intros Hacc Hcopy.
  unfold copyIconToClipboard, tryCatch, copyAttempt, copyFailed, mbind, M_bind,
    fsAccess, Clipboard_copy, showToast, call.
  rewrite Hacc. simpl. rewrite Hcopy. simpl.
  by rewrite <- !app_assoc.
Qed.

Lemma copyIconToClipboard_not_found (icon : AWSIcon) (format : CopyFormat)
    (h : Host) (e : Error) :
  access fs (path icon) = Throw e →
  copyIconToClipboard fs clipboardCopy clipboardAfterFailure icon format h =
    (Ok tt,
     {| clipboard := clipboard h;
        calls := calls h ++
          [FsAccess (path icon);
           ShowToast {| style := Failure;
                        title := "Failed to copy "
                                 +:+ JS.toUpperCase (formatString format)
                                 +:+ " icon to clipboard";
                        message := "The icon file might not exist or be accessible." |}];
        catalog := catalog h |}).
Proof.
  intros Hacc. unfold copyIconToClipboard, tryCatch.
  rewrite (copyIconToClipboard_access_throws _ _ _ e) by done.
  unfold copyFailed, showToast, call. simpl. by rewrite <- !app_assoc.
Qed.

End CopyAction.

(** C6: when the file of the record does not exist, so that [fs.access]
    throws, the attempt fails with that error after the one access;
    [copyIconToClipboard] then shows exactly one toast, of style Failure, and
    no Success toast, makes no second attempt, and leaves the clipboard and
    the catalog as they were. *)
Theorem copy_of_missing_file_fails_once (fs : FileSystem)
    (clipboardCopy : string → result unit)
    (clipboardAfterFailure : string → option string → option string) (icon : AWSIcon) (format : CopyFormat)
    (h : Host) (e : Error) :
  access fs (path icon) = Throw e →
  copyAttempt fs clipboardCopy clipboardAfterFailure icon format h
    = (Throw e, call (FsAccess (path icon)) h) ∧
  ∃ (failure : ToastOptions) (h' : Host),
    copyIconToClipboard fs clipboardCopy clipboardAfterFailure icon format h = (Ok tt, h') ∧
    calls h' = calls h ++ [FsAccess (path icon); ShowToast failure] ∧
    toastsOf (calls h') = toastsOf (calls h) ++ [failure] ∧
    style failure = Failure ∧
    clipboard h' = clipboard h ∧
    catalog h' = catalog h.
Proof.
  intros Hacc. split; [by apply copyIconToClipboard_access_throws|].
  rewrite (copyIconToClipboard_not_found _ _ _ _ _ _ e) by done.
  eexists _, _. split; [done|]. simpl. split_and!; try done.
  unfold toastsOf. by rewrite omap_app.
Qed.

Lemma copy_of_missing_file_fails_once_witness :
  let icon := {| name := "Gone"; category := "Res_Compute"; type := Resource;
                 formats := ["png"]; path := "/ext/missing/Gone.png" |} in
  copyIconToClipboard (Sample.fsWith "") Sample.clipboardOk Sample.clipboardKept icon png Sample.host0 =
    (Ok tt,
     {| clipboard := None;
        calls := [FsAccess "/ext/missing/Gone.png";
                  ShowToast {| style := Failure;
                               title := "Failed to copy PNG icon to clipboard";
                               message := "The icon file might not exist or be accessible." |}];
        catalog := [Sample.ec2] |}).
Proof.
  intros icon.
  destruct (copy_of_missing_file_fails_once (Sample.fsWith "") Sample.clipboardOk Sample.clipboardKept
              icon png Sample.host0 (NodeError "ENOENT") eq_refl)
    as (_ & failure & h' & Hrun & _).
  rewrite Hrun. vm_compute in Hrun. by injection Hrun as <-.
Defined.

(** C9: the "Copy PNG" and "Copy SVG" actions of a record run
    [copyIconToClipboard] with the same record; whichever format is passed,
    the file handed to the clipboard is the stored [path] of the record, and
    the outcome, the clipboard, the catalog and the host calls are the same
    up to the title of the toast. *)
Theorem copy_same_file_for_both_formats (fs : FileSystem)
    (clipboardCopy : string → result unit)
    (clipboardAfterFailure : string → option string → option string) (icon : AWSIcon) (h : Host) :
  let copied format := copyIconToClipboard fs clipboardCopy clipboardAfterFailure icon format h in
  actions (gridItem fs clipboardCopy clipboardAfterFailure icon) =
    [("Copy PNG", copyIconToClipboard fs clipboardCopy clipboardAfterFailure icon png);
     ("Copy SVG", copyIconToClipboard fs clipboardCopy clipboardAfterFailure icon svg)] ∧
  (copied png).1 = (copied svg).1 ∧
  clipboard (copied png).2 = clipboard (copied svg).2 ∧
  catalog (copied png).2 = catalog (copied svg).2 ∧
  eraseTitle <$> calls (copied png).2 = eraseTitle <$> calls (copied svg).2 ∧
  (∀ format file,
     ClipboardCopy file ∈ calls (copied format).2 →
     ClipboardCopy file ∈ calls h ∨ file = path icon) ∧
  (∀ format,
     access fs (path icon) = Ok tt →
     clipboardCopy (path icon) = Ok tt →
     clipboard (copied format).2 = Some (path icon)).
Proof.
  intros copied. subst copied. split; [done|].
  destruct (access fs (path icon)) as [[]|e] eqn:Hacc.
  - destruct (clipboardCopy (path icon)) as [[]|e] eqn:Hcopy.
    + rewrite !copyIconToClipboard_copied by done. simpl.
      split_and!; try done.
      * by rewrite !fmap_app.
      * intros format file. rewrite copyIconToClipboard_copied by done. simpl.
        rewrite elem_of_app, !elem_of_cons, elem_of_nil.
        intros Hin. decompose [or] Hin; simplify_eq; auto; done.
      * intros format _ _. by rewrite copyIconToClipboard_copied.
    + rewrite !(copyIconToClipboard_copy_throws _ _ _ _ _ _ e) by done. simpl.
      split_and!; try done.
      * by rewrite !fmap_app.
      * intros format file.
        rewrite (copyIconToClipboard_copy_throws _ _ _ _ _ _ e) by done. simpl.
        rewrite elem_of_app, !elem_of_cons, elem_of_nil.
        intros Hin. decompose [or] Hin; simplify_eq; auto; done.
  - rewrite !(copyIconToClipboard_not_found _ _ _ _ _ _ e) by done. simpl.
    split_and!; try done.
    + by rewrite !fmap_app.
    + intros format file.
      rewrite (copyIconToClipboard_not_found _ _ _ _ _ _ e) by done. simpl.
      rewrite elem_of_app, !elem_of_cons, elem_of_nil.
        intros Hin. decompose [or] Hin; simplify_eq; auto; done.
Qed.

Lemma copy_same_file_for_both_formats_witness :
  clipboard (copyIconToClipboard (Sample.fsWith "") Sample.clipboardOk Sample.clipboardKept
               Sample.ec2 svg Sample.host0).2
    = Some (Sample.base +:+ "/Res_Compute/Amazon-EC2.png").
Proof.
  pose proof (copy_same_file_for_both_formats (Sample.fsWith "") Sample.clipboardOk Sample.clipboardKept
                Sample.ec2 Sample.host0) as (_ & _ & _ & _ & _ & _ & Hsame).
  apply (Hsame svg); reflexivity.
Defined.

(** ** The title of a grid cell *)

Lemma truncate_short (str : string) (maxLength : nat) :
  String.length str ≤ maxLength → truncate str maxLength = str.
Proof.
  intros H. unfold truncate.
  by destruct (Nat.leb_spec (String.length str) maxLength); [|lia].
Qed.

Lemma truncate_long (str : string) (maxLength : nat) :
  maxLength < String.length str →
  ∃ kept rest,
    str = kept +:+ rest ∧ String.length kept = maxLength ∧
    truncate str maxLength = kept +:+ "...".
Proof.
  intros H. unfold truncate, JS.slice0.
  destruct (Nat.leb_spec (String.length str) maxLength); [lia|].
  destruct (substring_0_spec maxLength str) as (rest & Hstr & Hlen); [lia|].
  by exists (String.substring 0 maxLength str), rest.
Qed.

(** C8, as the code has it: a name of at most 20 characters is shown
    unchanged; a longer name is shown as its first 20 characters followed by
    three dots, 23 characters in all. *)
Theorem gridItem_title_truncated (fs : FileSystem)
    (clipboardCopy : string → result unit)
    (clipboardAfterFailure : string → option string → option string) (icon : AWSIcon) :
  let shown := itemTitle (gridItem fs clipboardCopy clipboardAfterFailure icon) in
  (String.length (name icon) ≤ 20 → shown = name icon) ∧
  (20 < String.length (name icon) →
     ∃ kept rest,
       name icon = kept +:+ rest ∧ String.length kept = 20 ∧
       shown = kept +:+ "..." ∧ String.length shown = 23).
Proof.
  simpl. split.
  - apply truncate_short.
  - intros Hlong.
    destruct (truncate_long (name icon) 20 Hlong) as (kept & rest & Hn & Hk & Ht).
    exists kept, rest. split_and!; try done.
    rewrite Ht, app_length_s, Hk. done.
Qed.

Lemma gridItem_title_truncated_witness :
  itemTitle (gridItem (Sample.fsWith "") Sample.clipboardOk Sample.clipboardKept Sample.ec2) = "Amazon-EC2" ∧
  String.length
    (itemTitle (gridItem (Sample.fsWith "") Sample.clipboardOk Sample.clipboardKept Sample.beanstalk)) = 23.
Proof.
  split.
  - apply (gridItem_title_truncated (Sample.fsWith "") Sample.clipboardOk Sample.clipboardKept Sample.ec2).
    vm_compute. lia.
  - destruct (proj2 (gridItem_title_truncated (Sample.fsWith "") Sample.clipboardOk Sample.clipboardKept
                       Sample.beanstalk))
      as (kept & rest & _ & _ & _ & Hlen); [vm_compute; lia | exact Hlen].
Defined.

(** The title shown for a name of 29 characters has 23 characters, more
    than the 20 that C8 allows. *)
Lemma gridItem_title_exceeds_20 :
  String.length (name Sample.beanstalk) = 29 ∧
  itemTitle (gridItem (Sample.fsWith "") Sample.clipboardOk Sample.clipboardKept Sample.beanstalk)
    = "Arch_AWS-Elastic-Bea..." ∧
  ¬ (String.length
       (itemTitle (gridItem (Sample.fsWith "") Sample.clipboardOk Sample.clipboardKept Sample.beanstalk))
     ≤ 20).
Proof. split_and!; [reflexivity | reflexivity | vm_compute; lia]. Qed.

(** ** First occurrences *)

Section FirstOccurrences.

Context {A : Type} `{EqDecision A}.
Implicit Types (l : list A) (x y : A).

Lemma elem_of_firstOccurrences l x : x ∈ firstOccurrences l ↔ x ∈ l.
Proof.
  induction l as [|y l IH]; simpl; [done|].
  rewrite !elem_of_cons, list_elem_of_filter, IH.
  destruct (decide (x = y)); tauto.
Qed.

Lemma NoDup_firstOccurrences l : NoDup (firstOccurrences l).
Proof.
  induction l as [|y l IH]; simpl; [constructor|].
  apply NoDup_cons. split.
  - rewrite list_elem_of_filter. tauto.
  - by apply NoDup_filter.
Qed.

Lemma firstOccurrences_snoc l x :
  firstOccurrences (l ++ [x]) =
    if decide (x ∈ l) then firstOccurrences l else firstOccurrences l ++ [x].
Proof.
  induction l as [|y l IH]; cbn [firstOccurrences app].
  - rewrite decide_False; [done | apply not_elem_of_nil].
  - rewrite IH. destruct (decide (x ∈ l)) as [Hin|Hin].
    + rewrite decide_True; [done | by right].
    + rewrite filter_app. destruct (decide (x = y)) as [->|Hne].
      * rewrite filter_cons_False, filter_nil, app_nil_r by tauto.
        rewrite decide_True; [done | by left].
      * rewrite filter_cons_True, filter_nil by done.
        rewrite decide_False; [done|]. rewrite not_elem_of_cons. tauto.
Qed.

Lemma firstOccurrences_snoc_old l x :
  x ∈ l → firstOccurrences (l ++ [x]) = firstOccurrences l.
Proof. intros H. by rewrite firstOccurrences_snoc, decide_True. Qed.

Lemma firstOccurrences_snoc_new l x :
  x ∉ l → firstOccurrences (l ++ [x]) = firstOccurrences l ++ [x].
Proof. intros H. by rewrite firstOccurrences_snoc, decide_False. Qed.

(** As many as there are distinct elements. *)
Lemma length_firstOccurrences l :
  length (firstOccurrences l) = length (remove_dups l).
Proof.
  apply Permutation_length, NoDup_Permutation.
  - apply NoDup_firstOccurrences.
  - apply NoDup_remove_dups.
  - intros x. by rewrite elem_of_firstOccurrences, elem_of_remove_dups.
Qed.

End FirstOccurrences.

(** ** Merging entries into the array *)

Section Merge.

Implicit Types (es : list (AWSIcon * string)) (icons : list AWSIcon).
Implicit Types (e : AWSIcon * string) (k : string * string * IconType).

Lemma sameIcon_key (icon i : AWSIcon) : sameIcon icon i ↔ iconKey i = iconKey icon.
Proof.
  unfold sameIcon, iconKey. split; [by intros (-> & -> & ->) | by intros [=]].
Qed.

Lemma iconKey_pushFormat (i : AWSIcon) (format : string) :
  iconKey (pushFormat i format) = iconKey i.
Proof. reflexivity. Qed.

(** No record of that key yet: a record is appended. *)
Lemma addEntry_fresh icons e :
  entryKey e ∉ iconKey <$> icons →
  addEntry icons e = icons ++ [pushFormat e.1 e.2].
Proof.
  intros Hnew. unfold addEntry.
  destruct (list_find (sameIcon e.1) icons) as [[idx existingIcon]|] eqn:E;
    [|done].
  apply list_find_Some in E as (Hl & Hs & _). destruct Hnew.
  apply sameIcon_key in Hs. unfold entryKey. rewrite <- Hs.
  eapply list_elem_of_fmap_2, list_elem_of_lookup_2, Hl.
Qed.

(** A record of that key exists: only its [formats] can change, by the
    format being pushed if it is not there yet. *)
Lemma addEntry_existing icons e (idx : nat) (existingIcon : AWSIcon) :
  NoDup (iconKey <$> icons) →
  icons !! idx = Some existingIcon →
  iconKey existingIcon = entryKey e →
  addEntry icons e =
    if bool_decide (e.2 ∈ formats existingIcon) then icons
    else <[idx := pushFormat existingIcon e.2]> icons.
Proof.
  intros Hnd Hidx Hkey. unfold addEntry.
  destruct (list_find (sameIcon e.1) icons) as [[j x]|] eqn:E.
  - apply list_find_Some in E as (Hl & Hs & _).
    apply sameIcon_key in Hs.
    assert (j = idx) as ->.
    { eapply (NoDup_lookup _ _ _ (iconKey x) Hnd);
        rewrite list_lookup_fmap; [by rewrite Hl | rewrite Hidx; simpl].
      f_equal. by rewrite Hkey. }
    by simplify_eq.
  - apply list_find_None in E. rewrite Forall_forall in E.
    destruct (E existingIcon); [by eapply list_elem_of_lookup_2|].
    by apply sameIcon_key.
Qed.

Lemma entriesOf_snoc k es e :
  entriesOf k (es ++ [e]) =
    if decide (entryKey e = k) then entriesOf k es ++ [e] else entriesOf k es.
Proof.
  unfold entriesOf. rewrite filter_app.
  destruct (decide (entryKey e = k)).
  - by rewrite filter_cons_True.
  - by rewrite filter_cons_False, app_nil_r.
Qed.

Lemma entriesOf_nil k es : k ∉ entryKey <$> es → entriesOf k es = [].
Proof.
  intros Hk. unfold entriesOf. induction es as [|e es IH]; [done|].
  rewrite fmap_cons, not_elem_of_cons in Hk. destruct Hk as [Hne Hk].
  rewrite filter_cons_False by congruence. by apply IH.
Qed.

Lemma elem_of_entriesOf k es e : e ∈ entriesOf k es ↔ entryKey e = k ∧ e ∈ es.
Proof. unfold entriesOf. by rewrite list_elem_of_filter. Qed.

Lemma merged_step es icons e :
  formats e.1 = [] → merged es icons → merged (es ++ [e]) (addEntry icons e).
Proof.
  intros Hfresh [Hkeys Hrec].
  assert (NoDup (iconKey <$> icons)) as Hnd
    by (rewrite Hkeys; apply NoDup_firstOccurrences).
  destruct (decide (entryKey e ∈ entryKey <$> es)) as [Hold|Hnew].
  - (* the key has a record *)
    assert (entryKey e ∈ iconKey <$> icons) as Hin
      by (by rewrite Hkeys, elem_of_firstOccurrences).
    apply list_elem_of_fmap in Hin as (existingIcon & Hk & Hin).
    apply list_elem_of_lookup in Hin as (idx & Hidx).
    rewrite (addEntry_existing icons e idx existingIcon) by done.
    destruct (Hrec idx existingIcon Hidx) as (Hf & e0 & Hhead & Hpath).
    split.
    + rewrite fmap_app. change (entryKey <$> [e]) with [entryKey e].
      rewrite firstOccurrences_snoc_old by done.
      case_bool_decide; [done|].
      rewrite list_fmap_insert, iconKey_pushFormat. rewrite list_insert_id; [done|].
      by rewrite list_lookup_fmap, Hidx.
    + intros i r Hi.
      assert ((i = idx ∧ iconKey r = entryKey e) ∨
              (icons !! i = Some r ∧ iconKey r ≠ entryKey e)) as Hcase.
      { case_bool_decide.
        - destruct (decide (i = idx)) as [->|Hne]; [left|right].
          + split; [done|]. by simplify_eq.
          + split; [done|]. intros Hk'. apply Hne.
            eapply (NoDup_lookup _ _ _ (iconKey r) Hnd);
              rewrite list_lookup_fmap; [by rewrite Hi | rewrite Hidx; simpl].
            f_equal. congruence.
        - apply list_lookup_insert_Some in Hi as [(-> & <- & _)|[Hne Hi]];
            [left|right].
          + by rewrite iconKey_pushFormat.
          + split; [done|]. intros Hk'. apply Hne. symmetry.
            eapply (NoDup_lookup _ _ _ (iconKey r) Hnd);
              rewrite list_lookup_fmap; [by rewrite Hi | rewrite Hidx; simpl].
            f_equal. congruence. }
      rewrite entriesOf_snoc.
      destruct Hcase as [[-> Hk']|[Hi' Hk']].
      * rewrite decide_True by done.
        rewrite Hk', Hk in *. rewrite fmap_app. simpl.
        split.
        -- case_bool_decide as Hknown.
           ++ simplify_eq. rewrite Hf in Hknown |- *.
              rewrite elem_of_firstOccurrences in Hknown.
              by rewrite firstOccurrences_snoc_old.
           ++ apply list_lookup_insert_Some in Hi as [(_ & <- & _)|[? _]]; [|done].
              simpl. rewrite Hf in Hknown |- *.
              rewrite elem_of_firstOccurrences in Hknown.
              by rewrite firstOccurrences_snoc_new.
        -- exists e0. rewrite head_app, Hhead. split; [done|].
           case_bool_decide; [by simplify_eq|].
           by apply list_lookup_insert_Some in Hi as [(_ & <- & _)|[? _]].
      * rewrite decide_False by done. by apply (Hrec i).
  - (* the key is new *)
    assert (entryKey e ∉ iconKey <$> icons) as Hnotin
      by (by rewrite Hkeys, elem_of_firstOccurrences).
    rewrite addEntry_fresh by done. split.
    + rewrite !fmap_app. change (entryKey <$> [e]) with [entryKey e].
      by rewrite firstOccurrences_snoc_new, Hkeys.
    + intros i r Hi. rewrite entriesOf_snoc.
      apply lookup_app_Some in Hi as [Hi|[_ Hi]].
      * assert (iconKey r ≠ entryKey e) as Hne.
        { intros Hk. apply Hnotin. rewrite <- Hk.
          eapply list_elem_of_fmap_2, list_elem_of_lookup_2, Hi. }
        rewrite decide_False by done. by apply (Hrec i).
      * apply list_lookup_singleton_Some in Hi as [_ <-].
        rewrite iconKey_pushFormat, decide_True by done.
        rewrite entriesOf_nil by done. simpl. rewrite Hfresh. eauto.
Qed.

Lemma merged_fold es :
  Forall (λ e, formats e.1 = []) es → merged es (fold_left addEntry es []).
Proof.
  induction es as [|e es IH] using rev_ind; intros Hes.
  - split; [done|]. by intros i r ?.
  - apply Forall_app in Hes as [Hes He]. rewrite Forall_singleton in He.
    rewrite fold_left_app. simpl. apply merged_step; [done | by apply IH].
Qed.

End Merge.

(** ** Valid file entries *)

Lemma extractIconData_Some (item itemPath : string) (icon : AWSIcon) (format : string) :
  extractIconData item itemPath = (Some icon, format) →
  formats icon = [] ∧ path icon = itemPath.
Proof.
  unfold extractIconData.
  destruct (length (JS.split "/" item) <? 3); [done|].
  destruct (JS.pop _) as [fmt nameParts].
  destruct (negb (JS.truthy fmt) || _); [done|].
  by intros [= <- _].
Qed.

Section Entries.

Variable dirname : string.
Variable fs : FileSystem.

Lemma entryOf_Some (item : string) (e : AWSIcon * string) :
  entryOf dirname fs item = Some e →
  JS.startsWith item "." = true ∧
  (∃ st, stat fs (Path.join [baseDir dirname; item]) = Ok st ∧ isFile st = true) ∧
  extractIconData item (Path.join [baseDir dirname; item]) = (Some e.1, e.2) ∧
  formats e.1 = [] ∧
  path e.1 = Path.join [baseDir dirname; item].
Proof.
  unfold entryOf. destruct (JS.startsWith item "."); [|done].
  destruct (stat fs _) as [st|err]; [|done].
  destruct (isFile st) eqn:Hfile; [|done].
  destruct (extractIconData item _) as [[icon|] format] eqn:Hext; [|done].
  intros [= <-]. destruct (extractIconData_Some _ _ _ _ Hext) as [Hfmt Hpath].
  split_and!; simpl; eauto.
Qed.

Lemma entryOf_handled (item : string) (e : AWSIcon * string) :
  entryOf dirname fs item = Some e → statFails dirname fs item = false.
Proof.
  intros (_ & (st & Hst & _) & _)%entryOf_Some. unfold statFails.
  rewrite Hst. apply andb_false_r.
Qed.

Lemma omap_entryOf_fresh (items : list string) :
  Forall (λ e, formats e.1 = []) (omap (entryOf dirname fs) items).
Proof.
  apply Forall_forall. intros e (item & _ & He)%list_elem_of_omap.
  by apply entryOf_Some in He as (_ & _ & _ & ? & _).
Qed.

Lemma processed_prefix (items : list string) :
  ∃ rest, items = processed dirname fs items ++ rest.
Proof.
  induction items as [|item items [rest IH]]; simpl; [by exists []|].
  destruct (statFails dirname fs item).
  - by exists (item :: items).
  - exists rest. simpl. by f_equal.
Qed.

(** The catalog returned, and how it relates to the entries handled. *)
Lemma loadIconsData_merged :
  ∃ icons, loadIconsData dirname fs = Ok icons ∧
           merged (loadedEntries dirname fs) icons.
Proof.
  rewrite loadIconsData_entries. eexists. split; [done|].
  apply merged_fold, omap_entryOf_fresh.
Qed.

Lemma loadedEntries_complete (items : list string) :
  manifest dirname fs = Some items →
  Forall (λ item, statFails dirname fs item = false) items →
  loadedEntries dirname fs = omap (entryOf dirname fs) items.
Proof.
  intros Hm Hall. unfold loadedEntries. rewrite Hm. simpl.
  by rewrite processed_all.
Qed.

(** The loop body keeps every record in place, with its name, category,
    type and path; its formats can only grow at the end. *)
Lemma loadItem_preserves (item : string) (icons icons' : list AWSIcon)
    (outcome : result unit) (i : nat) (r : AWSIcon) :
  loadItem dirname fs item icons = (outcome, icons') →
  icons !! i = Some r →
  ∃ r', icons' !! i = Some r' ∧
        iconKey r' = iconKey r ∧ path r' = path r ∧
        (formats r' = formats r ∨ ∃ format, formats r' = formats r ++ [format]).
Proof.
  intros Hrun Hi.
  assert (∃ r', icons !! i = Some r' ∧ iconKey r' = iconKey r ∧
                path r' = path r ∧
                (formats r' = formats r ∨
                 ∃ format, formats r' = formats r ++ [format])) as Hsame
    by (exists r; split_and!; [done..|by left]).
  destruct (statFails dirname fs item) eqn:Hf.
  - destruct (loadItem_aborts dirname fs item icons Hf) as (err & _ & Hab).
    rewrite Hab in Hrun. by injection Hrun as _ <-.
  - rewrite loadItem_handled in Hrun by done. injection Hrun as _ <-.
    destruct (entryOf dirname fs item) as [e|]; simpl; [|done].
    unfold addEntry.
    destruct (list_find (sameIcon e.1) icons) as [[idx existingIcon]|] eqn:E.
    + case_bool_decide; [done|].
      apply list_find_Some in E as (Hidx & _ & _).
      destruct (decide (i = idx)) as [->|Hne].
      * exists (pushFormat existingIcon e.2).
        rewrite list_lookup_insert_eq by (by eapply lookup_lt_Some).
        simplify_eq. split_and!; [done..|]. right. by exists e.2.
      * by rewrite list_lookup_insert_ne.
    + by rewrite lookup_app_l by (by eapply lookup_lt_Some).
Qed.

End Entries.

Lemma filter_key_unique {A K : Type} `{EqDecision K} (f : A → K) (l : list A) (r : A) :
  NoDup (f <$> l) → r ∈ l → filter (λ x, f x = f r) l = [r].
Proof.
  induction l as [|x l IH]; [by intros _ ?%elem_of_nil|].
  rewrite fmap_cons, NoDup_cons. intros [Hx Hnd] [->|Hin]%elem_of_cons.
  - rewrite filter_cons_True by done. f_equal.
    clear IH Hnd. induction l as [|y l IH]; [done|].
    rewrite fmap_cons, not_elem_of_cons in Hx. destruct Hx as [Hne Hx].
    rewrite filter_cons_False by congruence. by apply IH.
  - rewrite filter_cons_False; [by apply IH|].
    intros Heq. apply Hx. rewrite Heq. by apply list_elem_of_fmap_2.
Qed.

Lemma filter_key_none {A K : Type} `{EqDecision K} (f : A → K) (l : list A) (k : K) :
  k ∉ f <$> l → filter (λ x, f x = k) l = [].
Proof.
  induction l as [|x l IH]; [done|].
  rewrite fmap_cons, not_elem_of_cons. intros [Hne Hk].
  rewrite filter_cons_False by congruence. by apply IH.
Qed.

Lemma entriesOf_elem (k : string * string * IconType) (es : list (AWSIcon * string)) :
  k ∈ entryKey <$> es ↔ entriesOf k es ≠ [].
Proof.
  split.
  - intros (e & -> & He)%list_elem_of_fmap Hnil.
    assert (e ∈ entriesOf (entryKey e) es) as Hin by (by apply elem_of_entriesOf).
    rewrite Hnil in Hin. by apply elem_of_nil in Hin.
  - intros Hne. destruct (decide (k ∈ entryKey <$> es)) as [|Hk]; [done|].
    by apply entriesOf_nil in Hk.
Qed.

(** ** Paths *)

Lemma startsWith_slash (s : string) :
  JS.startsWith s "/" = true ↔ ∃ s', s = String "/" s'.
Proof. unfold JS.startsWith. by rewrite prefix_spec. Qed.

(** Joining onto an absolute path gives an absolute path. *)
Lemma join_absolute (first : string) (others : list string) :
  JS.startsWith first "/" = true →
  JS.startsWith (Path.join (first :: others)) "/" = true.
Proof.
  intros [a ->]%startsWith_slash. unfold Path.join.
  rewrite filter_cons_True by done.
  assert (∃ q, JS.join "/" (String "/" a :: filter (λ arg, arg ≠ "") others)
               = String "/" q) as [q ->]
    by (destruct (filter _ others); eexists; reflexivity).
  unfold Path.normalize. rewrite bool_decide_eq_false_2 by done.
  assert (JS.startsWith (String "/" q) "/" = true) as ->
    by (apply startsWith_slash; by eexists).
  simpl. case_bool_decide; [done|].
  destruct (Path.endsWithSlash _); apply startsWith_slash; by eexists.
Qed.

Lemma itemPath_absolute (dirname item : string) :
  JS.startsWith dirname "/" = true →
  JS.startsWith (Path.join [baseDir dirname; item]) "/" = true.
Proof. intros H. by apply join_absolute, join_absolute. Qed.

(** The first entry of a key among the entries of some lines comes from the
    first line that is a valid file entry of that key. *)
Lemma head_entriesOf_line (dirname : string) (fs : FileSystem)
    (k : string * string * IconType) (items : list string) (e : AWSIcon * string) :
  head (entriesOf k (omap (entryOf dirname fs) items)) = Some e →
  ∃ before item after,
    items = before ++ item :: after ∧
    entryOf dirname fs item = Some e ∧ entryKey e = k ∧
    ∀ earlier e', earlier ∈ before →
                  entryOf dirname fs earlier = Some e' → entryKey e' ≠ k.
Proof.
  induction items as [|item items IH]; [done|]. simpl.
  destruct (entryOf dirname fs item) as [e0|] eqn:He0.
  - unfold entriesOf. destruct (decide (entryKey e0 = k)) as [Hk|Hk].
    + rewrite filter_cons_True by done. intros [= ->].
      exists [], item, items. split_and!; [done..|].
      by intros earlier e' ?%elem_of_nil.
    + rewrite filter_cons_False by done. intros Hhead.
      destruct (IH Hhead) as (before & it & after & -> & Hit & Hke & Hfirst).
      exists (item :: before), it, after. split_and!; [done..|].
      intros earlier e' [->|Hin]%elem_of_cons He'; [congruence|].
      by eapply Hfirst.
  - intros Hhead.
    destruct (IH Hhead) as (before & it & after & -> & Hit & Hke & Hfirst).
    exists (item :: before), it, after. split_and!; [done..|].
    intros earlier e' [->|Hin]%elem_of_cons He'; [congruence|].
    by eapply Hfirst.
Qed.

Lemma filter_all {A : Type} (P : A → Prop) `{∀ x, Decision (P x)} (l : list A) :
  Forall P l → filter P l = l.
Proof.
  induction 1 as [|x l Hx _ IH]; [done|].
  by rewrite filter_cons_True, IH.
Qed.

(** ** One record per logical icon *)

(** C1, as the code has it: the catalog holds at most one record per (name,
    category, type).  A triple with valid file entries among those the pass
    handles (the lines before the first one whose [stat] throws) has
    exactly one record, whose formats are the distinct formats of these
    entries, as many as there are; in particular a manifest made of valid
    file entries of one triple gives a catalog of one record.  When no
    [stat] throws, every valid file entry of the manifest is handled.  An
    entry whose triple already has a record leaves the array as it is, or
    pushes its format onto the formats of that record, and changes nothing
    else. *)
Theorem catalog_one_record_per_icon (dirname : string) (fs : FileSystem) :
  ∃ icons,
    loadIconsData dirname fs = Ok icons ∧
    NoDup (iconKey <$> icons) ∧
    (∀ k, let es := entriesOf k (loadedEntries dirname fs) in
          (es = [] → filter (λ r, iconKey r = k) icons = []) ∧
          (es ≠ [] →
             ∃ r, filter (λ r, iconKey r = k) icons = [r] ∧
                  formats r = firstOccurrences es.*2 ∧
                  length (formats r) = length (remove_dups es.*2))) ∧
    (∀ items k,
       manifest dirname fs = Some items →
       items ≠ [] →
       Forall (λ item, ∃ e, entryOf dirname fs item = Some e ∧ entryKey e = k) items →
       ∃ r, icons = [r] ∧ iconKey r = k ∧
            length (formats r) =
              length (remove_dups (omap (entryOf dirname fs) items).*2)) ∧
    (∀ items,
       manifest dirname fs = Some items →
       Forall (λ item, statFails dirname fs item = false) items →
       loadedEntries dirname fs = omap (entryOf dirname fs) items) ∧
    (∀ item e icons0 idx existingIcon,
       entryOf dirname fs item = Some e →
       NoDup (iconKey <$> icons0) →
       icons0 !! idx = Some existingIcon →
       iconKey existingIcon = entryKey e →
       loadItem dirname fs item icons0 =
         (Ok tt, if bool_decide (e.2 ∈ formats existingIcon) then icons0
                 else <[idx := pushFormat existingIcon e.2]> icons0)).
Proof.
  destruct (loadIconsData_merged dirname fs) as (icons & Hload & Hkeys & Hrec).
  exists icons.
  assert (NoDup (iconKey <$> icons)) as Hnd
    by (rewrite Hkeys; apply NoDup_firstOccurrences).
  assert (∀ k, let es := entriesOf k (loadedEntries dirname fs) in
            (es = [] → filter (λ r, iconKey r = k) icons = []) ∧
            (es ≠ [] →
               ∃ r, filter (λ r, iconKey r = k) icons = [r] ∧
                    formats r = firstOccurrences es.*2 ∧
                    length (formats r) = length (remove_dups es.*2))) as Hper.
  { intros k es. subst es. split.
    - intros Hnil. apply filter_key_none.
      rewrite Hkeys, elem_of_firstOccurrences, entriesOf_elem. by intros [].
    - intros Hne. apply entriesOf_elem in Hne.
      rewrite <- (elem_of_firstOccurrences (entryKey <$> _)), <- Hkeys in Hne.
      apply list_elem_of_fmap in Hne as (r & -> & Hin).
      exists r. split; [by apply filter_key_unique|].
      apply list_elem_of_lookup in Hin as (i & Hi).
      destruct (Hrec i r Hi) as (Hf & _).
      split; [done|]. by rewrite Hf, length_firstOccurrences. }
  assert (∀ items,
            manifest dirname fs = Some items →
            Forall (λ item, statFails dirname fs item = false) items →
            loadedEntries dirname fs = omap (entryOf dirname fs) items) as Hall
    by apply loadedEntries_complete.
  split_and!; [done..| |done|].
  - intros items k Hm Hne Hvalid.
    assert (loadedEntries dirname fs = omap (entryOf dirname fs) items) as Hes.
    { apply Hall; [done|]. eapply Forall_impl; [exact Hvalid|].
      intros item (e & He & _). by eapply entryOf_handled. }
    assert (Forall (λ e, entryKey e = k) (omap (entryOf dirname fs) items)) as Hk.
    { apply Forall_forall. intros e (item & Hin & He)%list_elem_of_omap.
      rewrite Forall_forall in Hvalid.
      destruct (Hvalid item Hin) as (e' & He' & Hk). congruence. }
    assert (entriesOf k (loadedEntries dirname fs) = omap (entryOf dirname fs) items)
      as Hof by (rewrite Hes; by apply filter_all).
    assert (Forall (λ r, iconKey r = k) icons) as Hicons.
    { apply Forall_forall. intros r Hr%(list_elem_of_fmap_2 iconKey).
      rewrite Hkeys, elem_of_firstOccurrences, Hes in Hr.
      apply list_elem_of_fmap in Hr as (e & -> & He).
      rewrite Forall_forall in Hk. by apply Hk. }
    destruct (Hper k) as [_ Hone]. rewrite Hof in Hone.
    destruct Hone as (r & Hfilter & _ & Hlen).
    { destruct items as [|item items]; [done|].
      apply Forall_cons in Hvalid as [(e & He & _) _]. simpl. by rewrite He. }
    rewrite filter_all in Hfilter by done.
    exists r. split_and!; [done| |done].
    rewrite Hfilter in Hicons. by rewrite Forall_singleton in Hicons.
  - intros item e icons0 idx existingIcon He Hnd0 Hidx Hk.
    rewrite loadItem_handled by (by eapply entryOf_handled).
    rewrite He. simpl. f_equal. by apply addEntry_existing.
Qed.

Lemma catalog_one_record_per_icon_witness :
  ∃ r, loadIconsData Sample.dirname
         (Sample.fsWith "./Res_Compute/Amazon-EC2.png
./Res_Compute/Amazon-EC2.svg
./Res_Compute/Amazon-EC2.png") = Ok [r] ∧
       iconKey r = ("Amazon-EC2", "Res_Compute", Resource) ∧
       length (formats r) = 2.
Proof.
  destruct (catalog_one_record_per_icon Sample.dirname
              (Sample.fsWith "./Res_Compute/Amazon-EC2.png
./Res_Compute/Amazon-EC2.svg
./Res_Compute/Amazon-EC2.png")) as (icons & Hload & _ & _ & Hone & _).
  destruct (Hone ["./Res_Compute/Amazon-EC2.png"; "./Res_Compute/Amazon-EC2.svg";
                  "./Res_Compute/Amazon-EC2.png"]
                 ("Amazon-EC2", "Res_Compute", Resource))
    as (r & -> & Hkey & Hlen).
  - reflexivity.
  - discriminate.
  - repeat constructor; eexists; split; reflexivity.
  - exists r. split_and!; [exact Hload | exact Hkey | exact Hlen].
Defined.

(** Two valid file entries of one triple, one per format, with a line whose
    [stat] throws between them: the pass ends at that line and the one
    record lists one format, not the two that C1 counts. *)
Lemma catalog_formats_cut_short :
  manifest Sample.dirname (Sample.fsWith "./Res_Compute/Amazon-EC2.png
./Res_Compute/missing.png
./Res_Compute/Amazon-EC2.svg")
    = Some ["./Res_Compute/Amazon-EC2.png"; "./Res_Compute/missing.png";
            "./Res_Compute/Amazon-EC2.svg"] ∧
  entryOf Sample.dirname (Sample.fsWith "") "./Res_Compute/Amazon-EC2.png"
    = Some ({| name := "Amazon-EC2"; category := "Res_Compute"; type := Resource;
               formats := [];
               path := Path.join [Sample.base; "./Res_Compute/Amazon-EC2.png"] |},
            "png") ∧
  entryOf Sample.dirname (Sample.fsWith "") "./Res_Compute/Amazon-EC2.svg"
    = Some ({| name := "Amazon-EC2"; category := "Res_Compute"; type := Resource;
               formats := [];
               path := Path.join [Sample.base; "./Res_Compute/Amazon-EC2.svg"] |},
            "svg") ∧
  loadIconsData Sample.dirname (Sample.fsWith "./Res_Compute/Amazon-EC2.png
./Res_Compute/missing.png
./Res_Compute/Amazon-EC2.svg")
    = Ok [{| name := "Amazon-EC2"; category := "Res_Compute"; type := Resource;
             formats := ["png"];
             path := Path.join [Sample.base; "./Res_Compute/Amazon-EC2.png"] |}] ∧
  ¬ (∃ r, loadIconsData Sample.dirname (Sample.fsWith "./Res_Compute/Amazon-EC2.png
./Res_Compute/missing.png
./Res_Compute/Amazon-EC2.svg") = Ok [r] ∧
          length (formats r) = length (remove_dups ["png"; "svg"])).
Proof.
  split_and!; [reflexivity..|].
  intros (r & Hload & Hlen). vm_compute in Hload. injection Hload as <-.
  vm_compute in Hlen. discriminate Hlen.
Qed.

(** ** Order of the catalog and the path of a record *)

(** C7: the records of the catalog come in the order in which their triples
    first appear among the valid file entries of the manifest.  The path of a
    record is the path, joined onto the asset directory (absolute when
    [__dirname] is), of the first line of the manifest that is a valid file
    entry of its triple; no step of the loop moves a record or changes its
    path. *)
Theorem catalog_in_manifest_order (dirname : string) (fs : FileSystem) :
  ∃ icons,
    loadIconsData dirname fs = Ok icons ∧
    iconKey <$> icons = firstOccurrences (entryKey <$> loadedEntries dirname fs) ∧
    (∀ r, r ∈ icons →
       ∃ before item after e,
         manifest dirname fs = Some (before ++ item :: after) ∧
         entryOf dirname fs item = Some e ∧
         entryKey e = iconKey r ∧
         (∀ earlier e', earlier ∈ before →
                        entryOf dirname fs earlier = Some e' →
                        entryKey e' ≠ iconKey r) ∧
         path r = Path.join [baseDir dirname; item] ∧
         (JS.startsWith dirname "/" = true → JS.startsWith (path r) "/" = true)) ∧
    (∀ item icons0 icons1 outcome i r,
       loadItem dirname fs item icons0 = (outcome, icons1) →
       icons0 !! i = Some r →
       ∃ r', icons1 !! i = Some r' ∧ iconKey r' = iconKey r ∧ path r' = path r).
Proof.
  destruct (loadIconsData_merged dirname fs) as (icons & Hload & Hkeys & Hrec).
  exists icons. split_and!; [done..| |].
  - intros r (i & Hi)%list_elem_of_lookup.
    destruct (Hrec i r Hi) as (_ & e & Hhead & Hpath).
    unfold loadedEntries in Hhead.
    destruct (manifest dirname fs) as [items|] eqn:Hm; [|done].
    simpl in Hhead.
    apply head_entriesOf_line
      in Hhead as (before & item & after & Hsplit & He & Hk & Hfirst).
    destruct (processed_prefix dirname fs items) as [rest Hitems].
    exists before, item, (after ++ rest), e.
    apply entryOf_Some in He as He'. destruct He' as (_ & _ & _ & _ & Hp).
    split_and!; try done.
    + by rewrite Hitems, Hsplit, <- app_assoc.
    + congruence.
    + intros Habs. rewrite Hpath, Hp. by apply itemPath_absolute.
  - intros item icons0 icons1 outcome i r Hrun Hi.
    destruct (loadItem_preserves dirname fs item icons0 icons1 outcome i r Hrun Hi)
      as (r' & ? & ? & ? & _).
    by exists r'.
Qed.

Lemma catalog_in_manifest_order_witness :
  JS.startsWith (path Sample.ec2) "/" = true ∧
  ∃ r', [pushFormat Sample.beanstalk "svg"; Sample.ec2] !! 1 = Some r' ∧
        iconKey r' = iconKey Sample.ec2 ∧ path r' = path Sample.ec2.
Proof.
  destruct (catalog_in_manifest_order Sample.dirname
              (Sample.fsWith "./Arch_Compute/64/Arch_AWS-Elastic-Beanstalk_64.png
./Res_Compute/Amazon-EC2.png
./Res_Compute/Amazon-EC2.svg"))
    as (icons & Hload & _ & Hfirst & Hstep).
  vm_compute in Hload. injection Hload as <-.
  split.
  - destruct (Hfirst Sample.ec2) as (_ & _ & _ & _ & _ & _ & _ & _ & _ & Habs).
    + right. left.
    + apply Habs. reflexivity.
  - apply (Hstep "./Arch_Compute/64/Arch_AWS-Elastic-Beanstalk_64.svg"
                 [Sample.beanstalk; Sample.ec2] _ (Ok tt) 1 Sample.ec2);
      reflexivity.
Defined.
(** * Further properties of the code *)

(** ** More on splitting and joining *)

Lemma split_app (sep : ascii) (a b : string) :
  JS.split sep (a +:+ String sep b) = JS.split sep a ++ JS.split sep b.
Proof.
  induction a as [|c a IH].
  - rewrite app_empty_l. simpl. by rewrite Ascii.eqb_refl.
  - rewrite app_cons. simpl. rewrite IH.
    pose proof (split_nonempty sep a) as Hne.
    destruct (Ascii.eqb c sep); [done|].
    by destruct (JS.split sep a).
Qed.

Lemma app_assoc_s (a b c : string) : (a +:+ b) +:+ c = a +:+ b +:+ c.
Proof. induction a as [|x a IH]; [done | by rewrite !app_cons, IH]. Qed.

Lemma Contains_cons (c : ascii) (s sub : string) :
  Contains s sub → Contains (String c s) sub.
Proof. intros (pre & post & ->). by exists (String c pre), post. Qed.

Lemma Contains_app_l (s t sub : string) : Contains s sub → Contains (s +:+ t) sub.
Proof.
  intros (pre & post & ->). exists pre, (post +:+ t). by rewrite !app_assoc_s.
Qed.

Lemma Contains_app_r (s t sub : string) : Contains t sub → Contains (s +:+ t) sub.
Proof.
  intros H. induction s as [|c s IH]; [done|].
  rewrite app_cons. by apply Contains_cons.
Qed.

Lemma split_without_sep (sep : ascii) (s : string) :
  ¬ Contains s (String sep "") → JS.split sep s = [s].
Proof.
  induction s as [|c s IH]; [done|]. intros Hno. simpl.
  destruct (Ascii.eqb_spec c sep) as [->|Hne].
  - destruct Hno. by exists "", s.
  - rewrite IH; [done|]. intros H. by apply Hno, Contains_cons.
Qed.

Lemma join_snoc (sep : string) (parts : list string) (p : string) :
  parts ≠ [] → JS.join sep (parts ++ [p]) = JS.join sep parts +:+ sep +:+ p.
Proof.
  induction parts as [|q parts IH]; [done|]. intros _.
  destruct parts as [|r parts]; [done|].
  rewrite <- app_comm_cons, join_cons by done.
  rewrite IH by done. rewrite (join_cons sep q) by done.
  by rewrite !app_assoc_s.
Qed.

(** ** What [extractIconData] accepts *)

Lemma extractIconData_fields (item itemPath : string) (icon : AWSIcon)
    (format : string) :
  extractIconData item itemPath = (Some icon, format) →
  3 ≤ length (JS.split "/" item) ∧
  last (JS.split "/" item) = Some (name icon +:+ "." +:+ format) ∧
  name icon ≠ "" ∧ format ≠ "" ∧
  ¬ Contains format "." ∧ ¬ Contains format "/" ∧ ¬ Contains (name icon) "/" ∧
  JS.split "/" item !! 1 = Some (category icon) ∧
  ¬ Contains (category icon) "/" ∧
  type icon = getTypeFromCategory (category icon) ∧
  formats icon = [] ∧
  path icon = itemPath.
Proof.
  intros Hext.
  destruct (Nat.ltb_spec (length (JS.split "/" item)) 3) as [Hshort|Hlen].
  { by rewrite extractIconData_short in Hext. }
  set (parts := JS.split "/" item) in *.
  set (filename := nth (length parts - 1) parts "").
  destruct (split_snoc "." filename) as (nameParts & fmt & Hsplit).
  rewrite (extractIconData_parts item itemPath nameParts fmt) in Hext by done.
  case_bool_decide as Hempty; [done|]. injection Hext as <- <-. simpl.
  assert (parts ≠ []) as Hparts by (intros E; rewrite E in Hlen; simpl in Hlen; lia).
  assert (last parts = Some filename) as Hlast by (by apply nth_last).
  assert (filename ∈ parts) as Hin.
  { rewrite last_lookup in Hlast. by eapply list_elem_of_lookup_2. }
  assert (¬ Contains filename "/") as Hslash by (by eapply split_no_sep).
  assert (nameParts ≠ []) as Hnp by (intros ->; tauto).
  assert (filename = JS.join "." nameParts +:+ "." +:+ fmt) as Hfile.
  { rewrite <- join_snoc, <- Hsplit by done. symmetry. apply (join_split "."). }
  assert (nth 1 parts "" ∈ parts) as Hcat.
  { apply list_elem_of_In, nth_In. lia. }
  split_and!; try done; try tauto.
  - by rewrite Hlast, Hfile.
  - apply (split_no_sep "." filename). rewrite Hsplit.
    apply elem_of_app. right. by left.
  - intros H. apply Hslash. rewrite Hfile. by apply Contains_app_r, Contains_app_r.
  - intros H. apply Hslash. rewrite Hfile. by apply Contains_app_l.
  - subst parts. rewrite nth_lookup.
    destruct (JS.split "/" item !! 1) as [c|] eqn:E; [done|].
    apply lookup_ge_None in E. lia.
  - by eapply split_no_sep.
Qed.

(** The icon and format returned determine the entry's file name: it is the
    name, a dot, and the format; neither is empty, the format has no dot,
    the category is the second segment, and no segment holds a slash. *)
Theorem extractIconData_accepted (item itemPath : string) (icon : AWSIcon)
    (format : string) :
  extractIconData item itemPath = (Some icon, format) →
  3 ≤ length (JS.split "/" item) ∧
  last (JS.split "/" item) = Some (name icon +:+ "." +:+ format) ∧
  name icon ≠ "" ∧ format ≠ "" ∧
  ¬ Contains format "." ∧ ¬ Contains format "/" ∧ ¬ Contains (name icon) "/" ∧
  JS.split "/" item !! 1 = Some (category icon) ∧
  ¬ Contains (category icon) "/" ∧
  type icon = getTypeFromCategory (category icon) ∧
  formats icon = [] ∧
  path icon = itemPath.
Proof. apply extractIconData_fields. Qed.

Lemma extractIconData_accepted_witness :
  last (JS.split "/" "./Arch_Storage/64/Arch_Amazon-S3.v2.svg")
    = Some ("Arch_Amazon-S3.v2" +:+ "." +:+ "svg").
Proof.
  exact (proj1 (proj2 (extractIconData_accepted
    "./Arch_Storage/64/Arch_Amazon-S3.v2.svg" "/ext/s3"
    {| name := "Arch_Amazon-S3.v2"; category := "Arch_Storage";
       type := Architecture; formats := []; path := "/ext/s3" |} "svg" eq_refl))).
Defined.

(** An entry of at least three segments is accepted exactly when its file
    name is a non-empty name, a dot, and a non-empty format without a dot;
    the icon then carries that name and the format is returned.  So a file
    name without a dot, one that starts with its only dot, and one that ends
    in a dot are all rejected. *)
Theorem extractIconData_accepts_iff (item itemPath filename : string) :
  3 ≤ length (JS.split "/" item) →
  last (JS.split "/" item) = Some filename →
  (∀ n f,
     (∃ icon, extractIconData item itemPath = (Some icon, f) ∧ name icon = n) ↔
     filename = n +:+ "." +:+ f ∧ n ≠ "" ∧ f ≠ "" ∧ ¬ Contains f ".") ∧
  (¬ Contains filename "." → extractIconData item itemPath = (None, "")) ∧
  (∀ rest, filename = "." +:+ rest → ¬ Contains rest "." →
           extractIconData item itemPath = (None, "")) ∧
  (∀ rest, filename = rest +:+ "." → extractIconData item itemPath = (None, "")).
Proof.
  intros Hlen Hlast.
  assert (∀ n f, filename = n +:+ "." +:+ f → ¬ Contains f "." →
            extractIconData item itemPath =
              if bool_decide (f = "" ∨ n = "") then (None, "")
              else (Some {| name := n;
                            category := nth 1 (JS.split "/" item) "";
                            type := getTypeFromCategory (nth 1 (JS.split "/" item) "");
                            formats := []; path := itemPath |}, f)) as Hdot.
  { intros n f Hfile Hf.
    rewrite (extractIconData_parts item itemPath (JS.split "." n) f); [|done|].
    - by rewrite (join_split "." n).
    - assert (nth (length (JS.split "/" item) - 1) (JS.split "/" item) "" = filename)
        as ->.
      { rewrite (nth_last _ "") in Hlast; [by injection Hlast|].
        intros E. rewrite E in Hlen. simpl in Hlen. lia. }
      rewrite Hfile. change ("." +:+ f) with (String "." f).
      by rewrite split_app, (split_without_sep "." f). }
  split_and!.
  - intros n f. split.
    + intros (icon & Hext & <-).
      apply extractIconData_fields in Hext as (_ & Hl & ? & ? & ? & _).
      rewrite Hlast in Hl. by injection Hl as ->.
    + intros (Hfile & Hn & Hf & Hnodot). rewrite (Hdot n f) by done.
      rewrite bool_decide_eq_false_2 by tauto. eauto.
  - intros Hnodot.
    destruct (extractIconData item itemPath) as [[icon|] f] eqn:Hext.
    + apply extractIconData_fields in Hext as (_ & Hl & _).
      rewrite Hlast in Hl. injection Hl as ->.
      destruct Hnodot. apply Contains_app_r. by exists "", f.
    + unfold extractIconData in Hext. repeat case_match; by simplify_eq.
  - intros rest Hfile Hrest. rewrite (Hdot "" rest) by done.
    by rewrite bool_decide_eq_true_2 by tauto.
  - intros rest Hfile. rewrite (Hdot rest "").
    + by rewrite bool_decide_eq_true_2 by tauto.
    + done.
    + intros (pre & post & H). by destruct pre.
Qed.

Lemma extractIconData_accepts_iff_witness :
  extractIconData "./Cat_Analytics/.DS_Store" "/ext/x" = (None, "").
Proof.
  destruct (extractIconData_accepts_iff "./Cat_Analytics/.DS_Store" "/ext/x"
              ".DS_Store") as (_ & _ & Hhidden & _).
  - vm_compute. lia.
  - reflexivity.
  - apply (Hhidden "DS_Store"); [reflexivity|].
    rewrite <- includes_spec. by vm_compute.
Defined.

(** ** What every record of the catalog satisfies *)

Lemma head_firstOccurrences {A : Type} `{EqDecision A} (l : list A) :
  head (firstOccurrences l) = head l.
Proof. by destruct l. Qed.

Lemma loadedEntries_line (dirname : string) (fs : FileSystem) (e : AWSIcon * string) :
  e ∈ loadedEntries dirname fs →
  ∃ items item, manifest dirname fs = Some items ∧ item ∈ items ∧
                entryOf dirname fs item = Some e.
Proof.
  unfold loadedEntries. intros (item & Hin & He)%list_elem_of_omap.
  destruct (manifest dirname fs) as [items|]; simpl in Hin;
    [|by apply elem_of_nil in Hin].
  exists items, item. split_and!; [done| |done].
  destruct (processed_prefix dirname fs items) as [rest Hitems].
  rewrite Hitems. apply elem_of_app. by left.
Qed.

(** A record of the catalog and the entries it was merged from. *)
Lemma merged_record (es : list (AWSIcon * string)) (icons : list AWSIcon)
    (r : AWSIcon) :
  merged es icons → r ∈ icons →
  ∃ e, e ∈ es ∧ entryKey e = iconKey r ∧ path r = path e.1 ∧
       head (formats r) = Some e.2 ∧
       ∀ f, f ∈ formats r ↔ ∃ e', e' ∈ es ∧ entryKey e' = iconKey r ∧ e'.2 = f.
Proof.
  intros [_ Hrec] (i & Hi)%list_elem_of_lookup.
  destruct (Hrec i r Hi) as (Hf & e & Hhead & Hpath).
  assert (e ∈ entriesOf (iconKey r) es) as He.
  { destruct (entriesOf (iconKey r) es); simplify_eq/=. by left. }
  apply elem_of_entriesOf in He as [Hk He].
  exists e. split_and!; try done.
  - rewrite Hf, head_firstOccurrences.
    by destruct (entriesOf (iconKey r) es); simplify_eq/=.
  - intros f. rewrite Hf, elem_of_firstOccurrences, list_elem_of_fmap.
    split.
    + intros (e' & -> & [? ?]%elem_of_entriesOf). eauto.
    + intros (e' & ? & ? & <-). exists e'. split; [done|].
      by apply elem_of_entriesOf.
Qed.

Lemma NoDup_fmap_eq {A B : Type} (f : A → B) (l : list A) (x y : A) :
  NoDup (f <$> l) → x ∈ l → y ∈ l → f x = f y → x = y.
Proof.
  intros Hnd (i & Hi)%list_elem_of_lookup (j & Hj)%list_elem_of_lookup Hf.
  assert (i = j) as ->.
  { eapply (NoDup_lookup _ _ _ (f x) Hnd); rewrite list_lookup_fmap.
    - by rewrite Hi.
    - rewrite Hj. simpl. by rewrite Hf. }
  congruence.
Qed.

Section CatalogRecords.

Variable dirname : string.
Variable fs : FileSystem.

(** Every record of the catalog is well formed: a non-empty name, name and
    category free of slashes, and a non-empty list of formats without
    repetition, each format non-empty and free of dots and slashes. *)
Theorem catalog_records_well_formed :
  ∃ icons,
    loadIconsData dirname fs = Ok icons ∧
    ∀ r, r ∈ icons →
      name r ≠ "" ∧ ¬ Contains (name r) "/" ∧ ¬ Contains (category r) "/" ∧
      formats r ≠ [] ∧ NoDup (formats r) ∧
      ∀ f, f ∈ formats r → f ≠ "" ∧ ¬ Contains f "." ∧ ¬ Contains f "/".
Proof.
  destruct (loadIconsData_merged dirname fs) as (icons & Hload & Hm).
  exists icons. split; [done|]. intros r Hr.
  destruct (merged_record _ _ r Hm Hr) as (e & He & Hk & _ & Hhead & Hfs).
  assert (∀ e', e' ∈ loadedEntries dirname fs →
            ∃ item p, extractIconData item p = (Some e'.1, e'.2)) as Hext.
  { intros e' (items & item & _ & _ & He')%loadedEntries_line.
    apply entryOf_Some in He' as (_ & _ & ? & _). eauto. }
  destruct (Hext e He) as (item & p & Hx).
  apply extractIconData_fields
    in Hx as (_ & _ & Hn & _ & _ & _ & Hns & _ & Hcs & _).
  unfold entryKey, iconKey in Hk. injection Hk as Hname Hcat _.
  rewrite Hname in Hn, Hns. rewrite Hcat in Hcs.
  split_and!; try done.
  - by destruct (formats r).
  - destruct Hm as [_ Hrec]. apply list_elem_of_lookup in Hr as (i & Hi).
    destruct (Hrec i r Hi) as (-> & _). apply NoDup_firstOccurrences.
  - intros f (e' & He' & _ & <-)%Hfs.
    destruct (Hext e' He') as (item' & p' & Hx').
    by apply extractIconData_fields in Hx' as (_ & _ & _ & ? & ? & ? & _).
Qed.

(** The type of every record is the type of its category, so the records
    are already distinct by name and category. *)
Theorem catalog_type_follows_category :
  ∃ icons,
    loadIconsData dirname fs = Ok icons ∧
    (∀ r, r ∈ icons → type r = getTypeFromCategory (category r)) ∧
    NoDup ((λ r, (name r, category r)) <$> icons).
Proof.
  destruct (loadIconsData_merged dirname fs) as (icons & Hload & Hm).
  exists icons. split; [done|].
  assert (∀ r, r ∈ icons → type r = getTypeFromCategory (category r)) as Htype.
  { intros r Hr.
    destruct (merged_record _ _ r Hm Hr) as (e & He & Hk & _).
    apply loadedEntries_line in He as (items & item & _ & _ & He).
    apply entryOf_Some in He as (_ & _ & Hx & _).
    apply extractIconData_fields in Hx as (_ & _ & _ & _ & _ & _ & _ & _ & _ & Ht & _).
    unfold entryKey, iconKey in Hk. injection Hk as _ Hcat Hty. congruence. }
  split; [done|].
  assert (NoDup (iconKey <$> icons)) as Hnd
    by (destruct Hm as [-> _]; apply NoDup_firstOccurrences).
  apply NoDup_fmap_1 in Hnd as Hnd'.
  apply NoDup_fmap_2_strong; [|done].
  intros r1 r2 Hr1 Hr2 [= Hn Hc].
  apply (NoDup_fmap_eq iconKey icons); [done..|].
  unfold iconKey. rewrite (Htype r1), (Htype r2) by done. congruence.
Qed.

End CatalogRecords.

Lemma catalog_records_well_formed_witness :
  name Sample.ec2 ≠ "" ∧ NoDup (formats Sample.ec2).
Proof.
  destruct (catalog_records_well_formed Sample.dirname
              (Sample.fsWith "./Res_Compute/Amazon-EC2.png
./Res_Compute/Amazon-EC2.svg")) as (icons & Hload & Hwf).
  vm_compute in Hload. injection Hload as <-.
  destruct (Hwf Sample.ec2) as (Hn & _ & _ & _ & Hnd & _); [left|].
  by split.
Defined.

Lemma catalog_type_follows_category_witness :
  type Sample.ec2 = getTypeFromCategory (category Sample.ec2).
Proof.
  destruct (catalog_type_follows_category Sample.dirname
              (Sample.fsWith "./Res_Compute/Amazon-EC2.png
./Res_Compute/Amazon-EC2.svg")) as (icons & Hload & Htype & _).
  vm_compute in Hload. injection Hload as <-.
  apply Htype. left.
Defined.

(** The path of every record names a file that [stat] found, listed in the
    manifest on a marked line; the name of that file is the name of the
    record, a dot, and the first of its formats. *)
Theorem catalog_path_is_first_format_file (dirname : string) (fs : FileSystem) :
  ∃ icons,
    loadIconsData dirname fs = Ok icons ∧
    ∀ r, r ∈ icons →
      ∃ items item st first,
        manifest dirname fs = Some items ∧ item ∈ items ∧
        JS.startsWith item "." = true ∧
        path r = Path.join [baseDir dirname; item] ∧
        stat fs (path r) = Ok st ∧ isFile st = true ∧
        head (formats r) = Some first ∧
        last (JS.split "/" item) = Some (name r +:+ "." +:+ first).
Proof.
  destruct (loadIconsData_merged dirname fs) as (icons & Hload & Hm).
  exists icons. split; [done|]. intros r Hr.
  destruct (merged_record _ _ r Hm Hr) as (e & He & Hk & Hpath & Hhead & _).
  apply loadedEntries_line in He as (items & item & Hman & Hin & He).
  apply entryOf_Some in He as (Hmark & (st & Hst & Hfile) & Hx & _ & Hp).
  apply extractIconData_fields in Hx as (_ & Hlast & _).
  unfold entryKey, iconKey in Hk. injection Hk as Hname _ _.
  exists items, item, st, e.2. rewrite Hpath, Hp, <- Hname.
  by split_and!.
Qed.

Lemma catalog_path_is_first_format_file_witness :
  ∃ st, stat (Sample.fsWith "./Res_Compute/Amazon-EC2.png
./Res_Compute/Amazon-EC2.svg") (path Sample.ec2) = Ok st ∧ isFile st = true.
Proof.
  destruct (catalog_path_is_first_format_file Sample.dirname
              (Sample.fsWith "./Res_Compute/Amazon-EC2.png
./Res_Compute/Amazon-EC2.svg")) as (icons & Hload & Hfile).
  vm_compute in Hload. injection Hload as <-.
  destruct (Hfile Sample.ec2) as (_ & _ & st & _ & _ & _ & _ & _ & Hst & Hf & _);
    [left|].
  by exists st.
Defined.

(** ** The loop over the manifest lines *)

Section Loop.

Variable dirname : string.
Variable fs : FileSystem.

(** Lines that do not start with a dot, and lines whose path is not a file,
    take no part: with them filtered out, the loop ends the same way with the
    same array.  More generally this holds for every line that neither makes
    [stat] throw nor parses into an icon. *)
Theorem loop_ignores_idle_lines (items : list string) (icons : list AWSIcon) :
  (∀ item, JS.startsWith item "." = false →
           statFails dirname fs item = false ∧ entryOf dirname fs item = None) ∧
  (∀ item st, stat fs (Path.join [baseDir dirname; item]) = Ok st →
              isFile st = false →
              statFails dirname fs item = false ∧ entryOf dirname fs item = None) ∧
  forOf (filter (λ item, statFails dirname fs item = true ∨
                         is_Some (entryOf dirname fs item)) items)
        (loadItem dirname fs) icons
    = forOf items (loadItem dirname fs) icons ∧
  forOf (filter (λ item, JS.startsWith item "." = true) items)
        (loadItem dirname fs) icons
    = forOf items (loadItem dirname fs) icons.
Proof.
  split_and!.
  - intros item Hm. unfold statFails, entryOf. by rewrite Hm.
  - intros item st Hst Hfile. unfold statFails, entryOf. rewrite Hst, Hfile.
    split; [apply andb_false_r | by destruct (JS.startsWith item ".")].
  - revert icons. induction items as [|item items IH]; intros icons; [done|].
    destruct (decide (statFails dirname fs item = true ∨
                      is_Some (entryOf dirname fs item))) as [Hkeep|Hidle].
    + rewrite filter_cons_True by done. rewrite !forOf_cons.
      destruct (loadItem dirname fs item icons) as [[[]|e] icons']; [apply IH|done].
    + rewrite filter_cons_False by done. rewrite forOf_cons.
      rewrite loadItem_handled; [|by destruct (statFails dirname fs item); tauto].
      destruct (entryOf dirname fs item); [|apply IH].
      destruct Hidle. right. by eexists.
  - revert icons. induction items as [|item items IH]; intros icons; [done|].
    destruct (JS.startsWith item ".") eqn:Hm.
    + rewrite filter_cons_True by done. rewrite !forOf_cons.
      destruct (loadItem dirname fs item icons) as [[[]|e] icons']; [apply IH|done].
    + rewrite filter_cons_False by congruence.
      rewrite forOf_cons, loadItem_unmarked by done. apply IH.
Qed.

(** One pass of the loop body adds at most one record and at most one
    format, and neither for a line that does not start with a dot. *)
Lemma loadItem_grows (item : string) (icons icons' : list AWSIcon)
    (outcome : result unit) :
  loadItem dirname fs item icons = (outcome, icons') →
  let marked := if JS.startsWith item "." then 1 else 0 in
  length icons ≤ length icons' ≤ length icons + marked ∧
  sum_list_with (λ r, length (formats r)) icons'
    ≤ sum_list_with (λ r, length (formats r)) icons + marked.
Proof.
  intros Hrun.
  destruct (JS.startsWith item ".") eqn:Hm; simpl.
  2:{ rewrite loadItem_unmarked in Hrun by done. injection Hrun as _ <-. lia. }
  destruct (statFails dirname fs item) eqn:Hf.
  { destruct (loadItem_aborts dirname fs item icons Hf) as (err & _ & Hab).
    rewrite Hab in Hrun. injection Hrun as _ <-. lia. }
  rewrite loadItem_handled in Hrun by done. injection Hrun as _ <-.
  destruct (entryOf dirname fs item) as [e|] eqn:He; simpl; [|lia].
  apply entryOf_Some in He as (_ & _ & _ & Hfresh & _).
  unfold addEntry.
  destruct (list_find (sameIcon e.1) icons) as [[idx existingIcon]|] eqn:E.
  - case_bool_decide; [lia|].
    apply list_find_Some in E as (Hidx & _ & _).
    rewrite length_insert. split; [lia|].
    rewrite insert_take_drop by (by eapply lookup_lt_Some).
    rewrite <- (take_drop_middle icons idx existingIcon) at 3 by done.
    rewrite !sum_list_with_app. simpl. rewrite length_app. simpl. lia.
  - rewrite length_app, sum_list_with_app. simpl.
    rewrite length_app, Hfresh. simpl. lia.
Qed.

Lemma forOf_loadItem_grows (items : list string) (icons icons' : list AWSIcon)
    (outcome : result unit) :
  forOf items (loadItem dirname fs) icons = (outcome, icons') →
  let marked := length (filter (λ item, JS.startsWith item "." = true) items) in
  length icons ≤ length icons' ≤ length icons + marked ∧
  sum_list_with (λ r, length (formats r)) icons'
    ≤ sum_list_with (λ r, length (formats r)) icons + marked.
Proof.
  revert icons. induction items as [|item items IH]; intros icons Hrun.
  - injection Hrun as _ <-. simpl. lia.
  - rewrite forOf_cons in Hrun.
    destruct (loadItem dirname fs item icons) as [o icons1] eqn:Hstep.
    pose proof (loadItem_grows item icons icons1 o Hstep) as Hg.
    destruct (JS.startsWith item ".") eqn:Hm; simpl in Hg.
    + rewrite filter_cons_True by done. simpl.
      destruct o as [[]|e].
      * specialize (IH icons1 Hrun). simpl in IH. lia.
      * injection Hrun as _ <-. lia.
    + rewrite filter_cons_False by congruence.
      destruct o as [[]|e].
      * specialize (IH icons1 Hrun). simpl in IH. lia.
      * injection Hrun as _ <-. lia.
Qed.

(** The loop adds at most one record and one format per line that starts
    with a dot, and never removes a record. *)
Theorem loop_growth_bounded (items : list string) (icons icons' : list AWSIcon)
    (outcome : result unit) :
  forOf items (loadItem dirname fs) icons = (outcome, icons') →
  let marked := length (filter (λ item, JS.startsWith item "." = true) items) in
  length icons ≤ length icons' ≤ length icons + marked ∧
  sum_list_with (λ r, length (formats r)) icons'
    ≤ sum_list_with (λ r, length (formats r)) icons + marked.
Proof. apply forOf_loadItem_grows. Qed.

(** Whatever lines follow, the loop keeps every record it has at its index,
    with its name, category, type and path; its formats only get longer at
    the end. *)
Theorem loop_keeps_records (items : list string) (icons icons' : list AWSIcon)
    (outcome : result unit) (i : nat) (r : AWSIcon) :
  forOf items (loadItem dirname fs) icons = (outcome, icons') →
  icons !! i = Some r →
  ∃ r', icons' !! i = Some r' ∧ iconKey r' = iconKey r ∧ path r' = path r ∧
        formats r `prefix_of` formats r'.
Proof.
  revert icons r. induction items as [|item items IH]; intros icons r Hrun Hi.
  - injection Hrun as _ <-. by exists r.
  - rewrite forOf_cons in Hrun.
    destruct (loadItem dirname fs item icons) as [o icons1] eqn:Hstep.
    destruct (loadItem_preserves dirname fs item icons icons1 o i r Hstep Hi)
      as (r1 & Hi1 & Hk1 & Hp1 & Hf1).
    assert (formats r `prefix_of` formats r1) as Hpre.
    { destruct Hf1 as [->|[f ->]]; [done | by apply prefix_app_r]. }
    destruct o as [[]|e].
    + destruct (IH icons1 r1 Hrun Hi1) as (r' & ? & ? & ? & ?).
      exists r'. split_and!; [done|congruence|congruence|by etrans].
    + injection Hrun as _ <-. by exists r1.
Qed.

End Loop.

Lemma loop_growth_bounded_witness :
  length [Sample.ec2] ≤ 0 + 3.
Proof.
  pose proof (loop_growth_bounded Sample.dirname (Sample.fsWith "")
    ["./Res_Compute/Amazon-EC2.png"; "Res_Compute"; "./Res_Compute/Amazon-EC2.svg";
     "./Res_Compute"] [] [Sample.ec2] (Ok tt) eq_refl) as [[_ H] _].
  exact H.
Defined.

Lemma loop_keeps_records_witness :
  ∃ r', [Sample.ec2] !! 0 = Some r' ∧ iconKey r' = iconKey Sample.ec2 ∧
        path r' = path Sample.ec2 ∧ ["png"] `prefix_of` formats r'.
Proof.
  exact (loop_keeps_records Sample.dirname (Sample.fsWith "")
    ["./Res_Compute/Amazon-EC2.svg"; "./Res_Compute/Amazon-EC2.png"]
    [pushFormat {| name := "Amazon-EC2"; category := "Res_Compute"; type := Resource;
                   formats := []; path := path Sample.ec2 |} "png"]
    [Sample.ec2] (Ok tt) 0 _ eq_refl eq_refl).
Defined.

Lemma loop_ignores_idle_lines_witness :
  forOf ["./Res_Compute/Amazon-EC2.png"] (loadItem Sample.dirname (Sample.fsWith "")) []
  = forOf ["Res_Compute"; "./Res_Compute/Amazon-EC2.png"; "./Dir/x/y.png"]
      (loadItem Sample.dirname (Sample.fsWith "")) [].
Proof.
  destruct (loop_ignores_idle_lines Sample.dirname (Sample.fsWith "")
              ["Res_Compute"; "./Res_Compute/Amazon-EC2.png"; "./Dir/x/y.png"] [])
    as (_ & _ & <- & _).
  reflexivity.
Defined.

(** ** Size of the catalog, and repeated lines *)

Lemma sum_list_with_ge_length {A : Type} (f : A → nat) (l : list A) :
  Forall (λ x, 1 ≤ f x) l → length l ≤ sum_list_with f l.
Proof. induction 1 as [|x l Hx _ IH]; simpl; lia. Qed.

(** The catalog has at most as many records as formats in all, and at most
    as many formats as the manifest has lines that start with a dot. *)
Theorem catalog_size_bounded (dirname : string) (fs : FileSystem) :
  ∃ icons,
    loadIconsData dirname fs = Ok icons ∧
    length icons ≤ sum_list_with (λ r, length (formats r)) icons ∧
    (manifest dirname fs = None → icons = []) ∧
    ∀ items,
      manifest dirname fs = Some items →
      sum_list_with (λ r, length (formats r)) icons
        ≤ length (filter (λ item, JS.startsWith item "." = true) items) ∧
      length (filter (λ item, JS.startsWith item "." = true) items) ≤ length items.
Proof.
  destruct (loadIconsData_merged dirname fs) as (icons & Hload & Hm).
  exists icons. split_and!; [done| | |].
  - apply sum_list_with_ge_length, Forall_forall. intros r Hr.
    destruct (merged_record _ _ r Hm Hr) as (e & _ & _ & _ & Hhead & _).
    destruct (formats r); simpl in *; [done | lia].
  - intros Hnone. destruct Hm as [Hkeys _].
    unfold loadedEntries in Hkeys. rewrite Hnone in Hkeys.
    by apply fmap_nil_inv in Hkeys.
  - intros items Hman. split; [|apply length_filter].
    rewrite loadIconsData_unfold in Hload. unfold manifest in Hman.
    destruct (access fs (baseDir dirname)) as [[]|e]; [|done].
    destruct (readFile fs _) as [content|e]; [|done].
    injection Hman as <-. injection Hload as <-.
    destruct (forOf (manifestItems content) (loadItem dirname fs) [])
      as [o icons'] eqn:Hrun.
    by destruct (forOf_loadItem_grows dirname fs _ _ _ _ Hrun) as [_ H].
Qed.

Lemma catalog_size_bounded_witness :
  length [Sample.ec2] ≤ 2.
Proof.
  destruct (catalog_size_bounded Sample.dirname
              (Sample.fsWith "./Res_Compute/Amazon-EC2.png
Res_Compute
./Res_Compute/Amazon-EC2.svg")) as (icons & Hload & Hlen & _ & Hmarked).
  vm_compute in Hload. injection Hload as <-.
  destruct (Hmarked ["./Res_Compute/Amazon-EC2.png"; "Res_Compute";
                     "./Res_Compute/Amazon-EC2.svg"] eq_refl) as [Hsum _].
  exact (Nat.le_trans _ _ _ Hlen Hsum).
Defined.

Section Repeats.

Variable dirname : string.
Variable fs : FileSystem.

Lemma processed_all_inv (items : list string) :
  processed dirname fs items = items →
  Forall (λ item, statFails dirname fs item = false) items.
Proof.
  induction items as [|item items IH]; [by constructor|]. simpl.
  destruct (statFails dirname fs item) eqn:Hf; [done|].
  intros [= H]. constructor; [done | by apply IH].
Qed.

(** An entry already merged changes nothing when merged again. *)
Lemma addEntry_again (es : list (AWSIcon * string)) (icons : list AWSIcon)
    (e : AWSIcon * string) :
  merged es icons → e ∈ es → addEntry icons e = icons.
Proof.
  intros Hm He.
  assert (NoDup (iconKey <$> icons)) as Hnd
    by (destruct Hm as [-> _]; apply NoDup_firstOccurrences).
  assert (entryKey e ∈ iconKey <$> icons) as Hin.
  { destruct Hm as [-> _]. rewrite elem_of_firstOccurrences.
    by apply list_elem_of_fmap_2. }
  apply list_elem_of_fmap in Hin as (r & Hk & Hr).
  destruct (merged_record _ _ r Hm Hr) as (_ & _ & _ & _ & _ & Hfs).
  apply list_elem_of_lookup in Hr as (idx & Hidx).
  rewrite (addEntry_existing icons e idx r) by done.
  rewrite bool_decide_eq_true_2; [done|]. apply Hfs. eauto.
Qed.

(** Lines that occur earlier in the manifest have no effect when they occur
    again at its end: the loop ends the same way with the same array.  So a
    manifest that lists its lines twice loads like the manifest itself. *)
Theorem loop_repeated_lines (items more : list string) :
  more ⊆ items →
  forOf (items ++ more) (loadItem dirname fs) []
    = forOf items (loadItem dirname fs) [].
Proof.
  intros Hsub. rewrite forOf_app.
  destruct (forOf items (loadItem dirname fs) []) as [[[]|e] icons] eqn:Hrun;
    [|done].
  assert (processed dirname fs items = items) as Hall
    by (apply forOf_loadItem_outcome with (icons := []); by rewrite Hrun).
  pose proof (forOf_loadItem_state dirname fs items []) as Hst.
  rewrite Hrun, Hall in Hst. simpl in Hst.
  assert (merged (omap (entryOf dirname fs) items) icons) as Hm
    by (rewrite Hst; apply merged_fold, omap_entryOf_fresh).
  apply processed_all_inv in Hall. rewrite Forall_forall in Hall.
  clear Hrun Hst. induction more as [|item more IH]; [done|].
  rewrite forOf_cons.
  assert (item ∈ items) as Hitem by (apply Hsub; by left).
  rewrite loadItem_handled by (by apply Hall).
  destruct (entryOf dirname fs item) as [e|] eqn:He; simpl.
  - rewrite (addEntry_again (omap (entryOf dirname fs) items)); [| done |].
    + apply IH. intros x Hx. apply Hsub. by right.
    + apply list_elem_of_omap. eauto.
  - apply IH. intros x Hx. apply Hsub. by right.
Qed.

End Repeats.

Lemma loop_repeated_lines_witness :
  forOf (["./Res_Compute/Amazon-EC2.png"; "./Res_Compute/Amazon-EC2.svg"] ++
         ["./Res_Compute/Amazon-EC2.svg"; "./Res_Compute/Amazon-EC2.png"])
        (loadItem Sample.dirname (Sample.fsWith "")) []
  = (Ok tt, [Sample.ec2]).
Proof.
  rewrite (loop_repeated_lines Sample.dirname (Sample.fsWith "")).
  - reflexivity.
  - intros x Hx. rewrite !elem_of_cons in *. tauto.
Defined.

(** ** More on the copy action *)

Section CopyOutcome.

Variable fs : FileSystem.
Variable clipboardCopy : string → result unit.
Variable clipboardAfterFailure : string → option string → option string.

(** The three ways a copy can go. *)
Lemma copyIconToClipboard_cases (icon : AWSIcon) (format : CopyFormat) (h : Host) :
  ∃ toast h',
    copyIconToClipboard fs clipboardCopy clipboardAfterFailure icon format h
      = (Ok tt, h') ∧
    toastsOf (calls h') = toastsOf (calls h) ++ [toast] ∧
    catalog h' = catalog h ∧
    ((access fs (path icon) = Ok tt ∧ clipboardCopy (path icon) = Ok tt ∧
      style toast = Success ∧
      title toast = JS.toUpperCase (formatString format) +:+ " icon copied to clipboard" ∧
      clipboard h' = Some (path icon)) ∨
     (access fs (path icon) = Ok tt ∧
      (∃ e, clipboardCopy (path icon) = Throw e) ∧
      style toast = Failure ∧
      message toast = "The icon file might not exist or be accessible." ∧
      clipboard h' = clipboardAfterFailure (path icon) (clipboard h)) ∨
     ((∃ e, access fs (path icon) = Throw e) ∧
      style toast = Failure ∧
      message toast = "The icon file might not exist or be accessible." ∧
      clipboard h' = clipboard h ∧
      calls h' = calls h ++ [FsAccess (path icon); ShowToast toast])).
Proof.
  destruct (access fs (path icon)) as [[]|e] eqn:Hacc.
  - destruct (clipboardCopy (path icon)) as [[]|e] eqn:Hcopy.
    + rewrite copyIconToClipboard_copied by done. eexists _, _. split; [done|].
      simpl. split; [unfold toastsOf; by rewrite omap_app|].
      split; [done|]. left. by split_and!.
    + rewrite (copyIconToClipboard_copy_throws _ _ _ _ _ _ e) by done.
      eexists _, _. split; [done|].
      simpl. split; [unfold toastsOf; by rewrite omap_app|].
      split; [done|]. right. left. split_and!; eauto.
  - rewrite (copyIconToClipboard_not_found _ _ _ _ _ _ e) by done.
    eexists _, _. split; [done|].
    simpl. split; [unfold toastsOf; by rewrite omap_app|].
    split; [done|]. right. right. split_and!; eauto.
Qed.

(** Every copy action resolves and shows exactly one toast.  The toast is a
    Success exactly when both [fs.access] and [Clipboard.copy] went through,
    and then the clipboard holds the path of the record; the failure message
    is the same whether the file was missing or the clipboard refused it.
    When [fs.access] throws, [Clipboard.copy] is not called and the clipboard
    keeps what it held; when [Clipboard.copy] throws, the clipboard holds
    whatever the host leaves there.  The catalog is never touched. *)
Theorem copy_shows_one_toast (icon : AWSIcon) (format : CopyFormat) (h : Host) :
  ∃ toast h',
    copyIconToClipboard fs clipboardCopy clipboardAfterFailure icon format h
      = (Ok tt, h') ∧
    toastsOf (calls h') = toastsOf (calls h) ++ [toast] ∧
    catalog h' = catalog h ∧
    (style toast = Success ↔
       access fs (path icon) = Ok tt ∧ clipboardCopy (path icon) = Ok tt) ∧
    (style toast = Success → clipboard h' = Some (path icon)) ∧
    (style toast = Failure →
       message toast = "The icon file might not exist or be accessible.") ∧
    (∀ e, access fs (path icon) = Throw e →
          clipboard h' = clipboard h ∧
          calls h' = calls h ++ [FsAccess (path icon); ShowToast toast]) ∧
    (∀ e, access fs (path icon) = Ok tt →
          clipboardCopy (path icon) = Throw e →
          clipboard h' = clipboardAfterFailure (path icon) (clipboard h)).
Proof.
  destruct (copyIconToClipboard_cases icon format h)
    as (toast & h' & Hrun & Htoasts & Hcat & Hcases).
  exists toast, h'. split_and!; try done.
  - destruct Hcases as [(? & ? & ? & _)|[(_ & [e He] & Hs & _)|([e He] & Hs & _)]];
      [done|..]; rewrite Hs; (split; [done|]); intros [??]; congruence.
  - destruct Hcases as [(_ & _ & _ & _ & ?)|[(_ & _ & Hs & _)|(_ & Hs & _)]];
      [done|..]; by rewrite Hs.
  - destruct Hcases as [(_ & _ & Hs & _)|[(_ & _ & _ & ? & _)|(_ & _ & ? & _)]];
      [by rewrite Hs|done..].
  - intros e He.
    destruct Hcases as [(? & _)|[(? & _)|(_ & _ & _ & ? & ?)]];
      [congruence..|done].
  - intros e Hacc He.
    destruct Hcases as [(_ & ? & _)|[(_ & _ & _ & _ & ?)|([e' ?] & _)]];
      [congruence|done|congruence].
Qed.

(** Two copies in a row: both resolve, two toasts are shown, and the
    clipboard ends with the path of the second record if that copy went
    through; if the file of the second record cannot be accessed, the
    clipboard keeps whatever the first copy left there. *)
Theorem copy_twice_last_wins (icon1 icon2 : AWSIcon) (format1 format2 : CopyFormat)
    (h : Host) :
  ∃ h1 h2 toast1 toast2,
    copyIconToClipboard fs clipboardCopy clipboardAfterFailure icon1 format1 h
      = (Ok tt, h1) ∧
    copyIconToClipboard fs clipboardCopy clipboardAfterFailure icon2 format2 h1
      = (Ok tt, h2) ∧
    (copyIconToClipboard fs clipboardCopy clipboardAfterFailure icon1 format1 ;;
     copyIconToClipboard fs clipboardCopy clipboardAfterFailure icon2 format2) h
      = (Ok tt, h2) ∧
    toastsOf (calls h2) = toastsOf (calls h) ++ [toast1; toast2] ∧
    (access fs (path icon2) = Ok tt → clipboardCopy (path icon2) = Ok tt →
       clipboard h2 = Some (path icon2)) ∧
    (∀ e, access fs (path icon2) = Throw e → clipboard h2 = clipboard h1) ∧
    (access fs (path icon1) = Ok tt → clipboardCopy (path icon1) = Ok tt →
     ∀ e, access fs (path icon2) = Throw e → clipboard h2 = Some (path icon1)).
Proof.
  destruct (copyIconToClipboard_cases icon1 format1 h)
    as (toast1 & h1 & Hrun1 & Ht1 & _ & Hcases1).
  destruct (copyIconToClipboard_cases icon2 format2 h1)
    as (toast2 & h2 & Hrun2 & Ht2 & _ & Hcases).
  assert (∀ e, access fs (path icon2) = Throw e → clipboard h2 = clipboard h1)
    as Hkeep.
  { intros e He.
    destruct Hcases as [(? & _)|[(? & _)|(_ & _ & _ & ? & _)]];
      [congruence..|done]. }
  exists h1, h2, toast1, toast2. split_and!; try done.
  - unfold mbind, M_bind. by rewrite Hrun1.
  - by rewrite Ht2, Ht1, <- app_assoc.
  - intros Hacc Hcopy.
    destruct Hcases as [(_ & _ & _ & _ & ?)|[(_ & [e ?] & _)|([e ?] & _)]];
      [done|congruence..].
  - intros Hacc Hcopy e He. rewrite (Hkeep e He).
    destruct Hcases1 as [(_ & _ & _ & _ & ?)|[(_ & [e' ?] & _)|([e' ?] & _)]];
      [done|congruence..].
Qed.

End CopyOutcome.

Lemma copy_shows_one_toast_witness :
  clipboard (copyIconToClipboard (Sample.fsWith "") Sample.clipboardOk
               Sample.clipboardKept Sample.ec2 png Sample.host0).2
    = Some (path Sample.ec2).
Proof.
  destruct (copy_shows_one_toast (Sample.fsWith "") Sample.clipboardOk
              Sample.clipboardKept Sample.ec2 png Sample.host0)
    as (toast & h' & Hrun & _ & _ & Hiff & Hclip & _).
  rewrite Hrun. simpl. apply Hclip, Hiff. by split.
Defined.

Lemma copy_twice_last_wins_witness :
  clipboard ((copyIconToClipboard (Sample.fsWith "") Sample.clipboardOk
                Sample.clipboardKept Sample.beanstalk svg ;;
              copyIconToClipboard (Sample.fsWith "") Sample.clipboardOk
                Sample.clipboardKept Sample.ec2 png) Sample.host0).2
    = Some (path Sample.ec2).
Proof.
  destruct (copy_twice_last_wins (Sample.fsWith "") Sample.clipboardOk
              Sample.clipboardKept Sample.beanstalk Sample.ec2 svg png Sample.host0)
    as (h1 & h2 & t1 & t2 & _ & _ & Hseq & _ & Hlast & _).
  rewrite Hseq. simpl. by apply Hlast.
Defined.

(** A record of the catalog, the first manifest line of its triple, and the
    entry parsed from that line. *)
Lemma catalog_record_first_line (dirname : string) (fs : FileSystem)
    (icons : list AWSIcon) (r : AWSIcon) :
  merged (loadedEntries dirname fs) icons → r ∈ icons →
  ∃ before item after e,
    manifest dirname fs = Some (before ++ item :: after) ∧
    entryOf dirname fs item = Some e ∧
    entryKey e = iconKey r ∧
    (∀ earlier e', earlier ∈ before →
                   entryOf dirname fs earlier = Some e' →
                   entryKey e' ≠ iconKey r) ∧
    path r = Path.join [baseDir dirname; item] ∧
    head (formats r) = Some e.2 ∧
    last (JS.split "/" item) = Some (name r +:+ "." +:+ e.2).
Proof.
  intros [_ Hrec] (i & Hi)%list_elem_of_lookup.
  destruct (Hrec i r Hi) as (Hf & e & Hhead & Hpath).
  assert (head (formats r) = Some e.2) as Hfirst.
  { rewrite Hf, head_firstOccurrences.
    by destruct (entriesOf (iconKey r) (loadedEntries dirname fs)); simplify_eq/=. }
  unfold loadedEntries in Hhead.
  destruct (manifest dirname fs) as [items|] eqn:Hm; [|done].
  simpl in Hhead.
  apply head_entriesOf_line
    in Hhead as (before & item & after & Hsplit & He & Hk & Hearlier).
  destruct (processed_prefix dirname fs items) as [rest Hitems].
  exists before, item, (after ++ rest), e.
  apply entryOf_Some in He as He'. destruct He' as (_ & _ & Hx & _ & Hp).
  apply extractIconData_fields in Hx as (_ & Hlast & _).
  assert (name e.1 = name r) as Hname by (by injection Hk).
  split_and!; try done.
  - by rewrite Hitems, Hsplit, <- app_assoc.
  - congruence.
  - by rewrite <- Hname.
Qed.

(** Whatever format is asked for, a successful copy of a catalog record puts
    on the clipboard the file of the first manifest line that is a valid file
    entry of the record's triple: the name of that file is the name of the
    record, a dot, and the first of the record's formats, while the toast
    names the format asked for. *)
Theorem copy_gives_first_format_file (dirname : string) (fs : FileSystem)
    (clipboardCopy : string → result unit)
    (clipboardAfterFailure : string → option string → option string) :
  ∃ icons,
    loadIconsData dirname fs = Ok icons ∧
    ∀ r format h,
      r ∈ icons →
      access fs (path r) = Ok tt →
      clipboardCopy (path r) = Ok tt →
      ∃ before item after e h' toast,
        manifest dirname fs = Some (before ++ item :: after) ∧
        entryOf dirname fs item = Some e ∧
        entryKey e = iconKey r ∧
        (∀ earlier e', earlier ∈ before →
                       entryOf dirname fs earlier = Some e' →
                       entryKey e' ≠ iconKey r) ∧
        copyIconToClipboard fs clipboardCopy clipboardAfterFailure r format h
          = (Ok tt, h') ∧
        clipboard h' = Some (Path.join [baseDir dirname; item]) ∧
        head (formats r) = Some e.2 ∧
        last (JS.split "/" item) = Some (name r +:+ "." +:+ e.2) ∧
        last (calls h') = Some (ShowToast toast) ∧
        style toast = Success ∧
        title toast = JS.toUpperCase (formatString format)
                      +:+ " icon copied to clipboard".
Proof.
  destruct (loadIconsData_merged dirname fs) as (icons & Hload & Hm).
  exists icons. split; [done|]. intros r format h Hr Hacc Hcopy.
  destruct (catalog_record_first_line dirname fs icons r Hm Hr)
    as (before & item & after & e & Hman & He & Hk & Hearlier & Hpath & Hhead & Hlast).
  rewrite copyIconToClipboard_copied by done.
  exists before, item, after, e. eexists _,
    {| style := Success;
       title := JS.toUpperCase (formatString format) +:+ " icon copied to clipboard";
       message := "Paste it wherever you need." |}.
  split_and!; try done; simpl.
  - by rewrite Hpath.
  - by rewrite last_app.
Qed.

Lemma copy_gives_first_format_file_witness :
  ∃ h', copyIconToClipboard (Sample.fsWith "") Sample.clipboardOk Sample.clipboardKept
          Sample.ec2 svg Sample.host0 = (Ok tt, h') ∧
        clipboard h' = Some (Path.join [baseDir Sample.dirname;
                                        "./Res_Compute/Amazon-EC2.png"]).
Proof.
  destruct (copy_gives_first_format_file Sample.dirname
              (Sample.fsWith "./Res_Compute/Amazon-EC2.png
./Res_Compute/Amazon-EC2.svg") Sample.clipboardOk Sample.clipboardKept)
    as (icons & Hload & Hcopy).
  vm_compute in Hload. injection Hload as <-.
  destruct (Hcopy Sample.ec2 svg Sample.host0)
    as (before & item & after & e & h' & toast & _ & _ & _ & _ & Hrun & _);
    [by left|done|done|].
  exists h'. split; [exact Hrun|].
  vm_compute in Hrun. by injection Hrun as <-.
Defined.

(** ** More on [truncate] *)

Lemma substring_0_app (a b : string) :
  String.substring 0 (String.length a) (a +:+ b) = a.
Proof.
  induction a as [|c a IH].
  - rewrite app_empty_l. by destruct b.
  - rewrite app_cons. simpl. by rewrite IH.
Qed.

Lemma truncate_long_eq (str : string) (maxLength : nat) :
  maxLength < String.length str →
  truncate str maxLength = JS.slice0 maxLength str +:+ "..." ∧
  String.length (JS.slice0 maxLength str) = maxLength.
Proof.
  intros H. unfold truncate, JS.slice0.
  destruct (Nat.leb_spec (String.length str) maxLength); [lia|].
  destruct (substring_0_spec maxLength str) as (rest & _ & Hlen); [lia|]. done.
Qed.

(** Truncating a second time changes nothing. *)
Theorem truncate_idempotent (str : string) (maxLength : nat) :
  truncate (truncate str maxLength) maxLength = truncate str maxLength.
Proof.
  destruct (Nat.le_gt_cases (String.length str) maxLength) as [Hshort|Hlong].
  - rewrite (truncate_short str) by done. by apply truncate_short.
  - destruct (truncate_long_eq str maxLength Hlong) as [-> Hlen].
    destruct (truncate_long_eq (JS.slice0 maxLength str +:+ "...") maxLength)
      as [-> _].
    + rewrite app_length_s, Hlen. simpl. lia.
    + unfold JS.slice0 at 1. by rewrite <- Hlen at 1; rewrite substring_0_app.
Qed.

(** A string longer than the limit comes out with exactly three characters
    more than the limit, ending in three dots; one that exceeds the limit by
    one or two characters therefore comes out longer than it went in. *)
Theorem truncate_can_lengthen (str : string) (maxLength : nat) :
  maxLength < String.length str →
  String.length (truncate str maxLength) = maxLength + 3 ∧
  (∃ kept, truncate str maxLength = kept +:+ "..." ∧
           String.prefix kept str = true) ∧
  (String.length str < maxLength + 3 →
     String.length str < String.length (truncate str maxLength)).
Proof.
  intros Hlong.
  destruct (truncate_long str maxLength Hlong) as (kept & rest & Hs & Hk & Ht).
  assert (String.length (truncate str maxLength) = maxLength + 3) as Hlen
    by (rewrite Ht, app_length_s, Hk; done).
  split_and!; [done| |lia].
  exists kept. split; [done|]. apply prefix_spec. by exists rest.
Qed.

Lemma truncate_can_lengthen_witness :
  String.length "Arch_Amazon-Braket_64" <
  String.length (truncate "Arch_Amazon-Braket_64" 20).
Proof.
  destruct (truncate_can_lengthen "Arch_Amazon-Braket_64" 20) as (_ & _ & H).
  - simpl. lia.
  - apply H. simpl. lia.
Defined.

(** ** The component *)

Section Mount.

Variable dirname : string.
Variable fs : FileSystem.
Variable clipboardCopy : string → result unit.
Variable clipboardAfterFailure : string → option string → option string.

(** The fetch on mount never sets the error: it stores the catalog and
    clears the loading flag.  So from the first render on, the view is the
    grid, one cell per record in catalog order, and never the error list;
    when the asset directory cannot be read the grid is simply empty. *)
Theorem fetchIcons_never_errors (s : Component.State) :
  loadIconsData dirname fs = Ok (Component.icons (Component.fetchIcons dirname fs s)) ∧
  Component.isLoading (Component.fetchIcons dirname fs s) = false ∧
  Component.error (Component.fetchIcons dirname fs s) = Component.error s ∧
  Component.render fs clipboardCopy clipboardAfterFailure Component.initial
    = Component.GridView true "Search AWS icons..." [] ∧
  Component.render fs clipboardCopy clipboardAfterFailure (Component.fetchIcons dirname fs Component.initial)
    = Component.GridView false "Search AWS icons..."
        (gridItem fs clipboardCopy clipboardAfterFailure
           <$> Component.icons (Component.fetchIcons dirname fs Component.initial)) ∧
  (∀ e, access fs (baseDir dirname) = Throw e →
        Component.render fs clipboardCopy clipboardAfterFailure
          (Component.fetchIcons dirname fs Component.initial)
        = Component.GridView false "Search AWS icons..." []).
Proof.
  unfold Component.fetchIcons. rewrite loadIconsData_unfold.
  split_and!; try done.
  intros e He. unfold Component.render. simpl. by rewrite He.
Qed.

End Mount.

Lemma fetchIcons_never_errors_witness :
  Component.render Sample.fsEmpty Sample.clipboardOk Sample.clipboardKept
    (Component.fetchIcons Sample.dirname Sample.fsEmpty Component.initial)
  = Component.GridView false "Search AWS icons..." [].
Proof.
  destruct (fetchIcons_never_errors Sample.dirname Sample.fsEmpty Sample.clipboardOk Sample.clipboardKept
              Component.initial) as (_ & _ & _ & _ & _ & H).
  by apply (H (NodeError "ENOENT")).
Defined.

(** ** More on the classification *)

(** Three of the four type labels classify as themselves, but the label
    "Architecture Group" classifies as Architecture, as does every category
    that contains "Architecture": extending a category that holds "Arch"
    keeps it an Architecture, and a category is an Architecture Group only if
    every part of it is. *)
Theorem getTypeFromCategory_of_labels :
  (∀ t, getTypeFromCategory (typeString t) = t ↔ t ≠ ArchitectureGroup) ∧
  (∀ category pre post,
     getTypeFromCategory category = Architecture →
     getTypeFromCategory (pre +:+ category +:+ post) = Architecture) ∧
  (∀ category, Contains category "Architecture" →
               getTypeFromCategory category = Architecture) ∧
  (∀ category pre post,
     getTypeFromCategory (pre +:+ category +:+ post) = ArchitectureGroup →
     getTypeFromCategory category = ArchitectureGroup).
Proof.
  assert (∀ c sub, JS.includes c sub = true → ∀ pre post,
            JS.includes (pre +:+ c +:+ post) sub = true) as Hext.
  { intros c sub H pre post. apply includes_spec.
    apply Contains_app_r, Contains_app_l. by apply includes_spec. }
  split_and!.
  - intros []; vm_compute; split; congruence.
  - intros category pre post. unfold getTypeFromCategory.
    destruct (JS.includes category "Arch") eqn:E.
    + by rewrite (Hext _ _ E).
    + by repeat case_match.
  - intros category (pre & post & ->). unfold getTypeFromCategory.
    by rewrite (Hext "Architecture" "Arch" eq_refl).
  - intros category pre post. unfold getTypeFromCategory.
    destruct (JS.includes category "Arch") eqn:E1;
      [by rewrite (Hext _ _ E1)|].
    destruct (JS.includes category "Res") eqn:E2;
      [rewrite (Hext _ _ E2); by case_match|].
    destruct (JS.includes category "Cat") eqn:E3;
      [rewrite (Hext _ _ E3); by repeat case_match|].
    done.
Qed.

Lemma getTypeFromCategory_of_labels_witness :
  getTypeFromCategory ("./" +:+ "Architecture-Group-Icons" +:+ "_06072024")
    = Architecture.
Proof.
  apply (proj1 (proj2 getTypeFromCategory_of_labels)). reflexivity.
Defined.

(** ** The lines of the manifest *)

Lemma split_join (sep : ascii) (parts : list string) :
  parts ≠ [] →
  Forall (λ p, ¬ Contains p (String sep "")) parts →
  JS.split sep (JS.join (String sep "") parts) = parts.
Proof.
  intros Hne Hparts. induction Hparts as [|p parts Hp Hparts IH]; [done|].
  destruct parts as [|q parts].
  - by apply split_without_sep.
  - rewrite join_cons by done.
    change (String sep "" +:+ ?s) with (String sep s).
    rewrite split_app, IH by done. by rewrite split_without_sep.
Qed.

(** Reading back a manifest written one line per entry gives the entries, as
    long as none is blank or holds a line feed; an empty list of entries is
    the empty manifest. *)
Theorem manifestItems_of_lines (lines : list string) :
  Forall (λ line, JS.trim line ≠ "" ∧ ¬ Contains line (String "010" "")) lines →
  manifestItems (JS.join (String "010" "") lines) = lines.
Proof.
  intros Hlines. unfold manifestItems.
  destruct lines as [|line lines]; [done|].
  rewrite split_join; [|done|].
  - apply filter_all. eapply Forall_impl; [done|]. by intros l [? _].
  - eapply Forall_impl; [done|]. by intros l [_ ?].
Qed.

Lemma manifestItems_of_lines_witness :
  manifestItems (JS.join (String "010" "")
                   ["./Res_Compute/Amazon-EC2.png"; "Res_Compute"])
  = ["./Res_Compute/Amazon-EC2.png"; "Res_Compute"].
Proof.
  apply manifestItems_of_lines.
  repeat constructor; try (by vm_compute);
    rewrite <- includes_spec; by vm_compute.
Defined.

(** The items of two manifests put together with a line feed are the items
    of the first followed by those of the second; a line feed at the end, or
    blank lines anywhere, add nothing.  No item is blank or holds a line
    feed, but items are kept as they are, without trimming. *)
Theorem manifestItems_concat (a b : string) :
  manifestItems (a +:+ String "010" b) = manifestItems a ++ manifestItems b ∧
  manifestItems (a +:+ String "010" "") = manifestItems a ∧
  (JS.trim b = "" → ¬ Contains b (String "010" "") →
     manifestItems (a +:+ String "010" b) = manifestItems a) ∧
  (∀ item, item ∈ manifestItems a ↔
           item ∈ JS.split "010" a ∧ JS.trim item ≠ "") ∧
  (∀ item, item ∈ manifestItems a → ¬ Contains item (String "010" "")).
Proof.
  assert (∀ x y, manifestItems (x +:+ String "010" y)
                 = manifestItems x ++ manifestItems y) as Happ.
  { intros x y. unfold manifestItems. by rewrite split_app, filter_app. }
  split_and!.
  - apply Happ.
  - rewrite Happ. apply app_nil_r.
  - intros Hblank Hline. rewrite Happ. unfold manifestItems at 2.
    rewrite split_without_sep by done.
    rewrite filter_cons_False, filter_nil by tauto. apply app_nil_r.
  - intros item. unfold manifestItems. rewrite list_elem_of_filter. tauto.
  - intros item [_ Hin]%list_elem_of_filter. by eapply split_no_sep.
Qed.

Lemma manifestItems_concat_witness :
  manifestItems ("./Res_Compute/Amazon-EC2.png" +:+ String "010" "  ")
  = manifestItems "./Res_Compute/Amazon-EC2.png".
Proof.
  apply (manifestItems_concat "./Res_Compute/Amazon-EC2.png" "  ").
  - reflexivity.
  - rewrite <- includes_spec. by vm_compute.
Defined.

(** ** Characters after the file name *)

Lemma split_trailing (sep : ascii) (s w : string) (init : list string) (l : string) :
  ¬ Contains w (String sep "") →
  JS.split sep s = init ++ [l] →
  JS.split sep (s +:+ w) = init ++ [l +:+ w].
Proof.
  intros Hw. revert init l. induction s as [|c s IH]; intros init l Hs.
  - rewrite app_empty_l, split_without_sep by done.
    simpl in Hs. destruct init as [|? [|??]]; by simplify_eq/=.
  - rewrite app_cons. simpl in *.
    destruct (split_snoc sep s) as (init' & l' & Hs').
    rewrite (IH _ _ Hs'). rewrite Hs' in Hs.
    destruct (Ascii.eqb c sep).
    + rewrite app_comm_cons in Hs. apply app_inj_tail in Hs as [<- <-]. done.
    + destruct init' as [|p init']; simpl in *.
      * destruct init as [|? [|??]]; by simplify_eq/=.
      * rewrite app_comm_cons in Hs. apply app_inj_tail in Hs as [<- <-]. done.
Qed.

(** A line is parsed as it stands: characters that follow the file name on
    the line, a carriage return for one, become part of the format. *)
Theorem extractIconData_trailing (item itemPath w : string) (icon : AWSIcon)
    (format : string) :
  extractIconData item itemPath = (Some icon, format) →
  ¬ Contains w "/" → ¬ Contains w "." →
  extractIconData (item +:+ w) itemPath = (Some icon, format +:+ w).
Proof.
  intros Hext Hslash Hdot.
  destruct (Nat.ltb_spec (length (JS.split "/" item)) 3) as [Hshort|Hlen].
  { by rewrite extractIconData_short in Hext. }
  destruct (split_snoc "/" item) as (init & filename & Hparts).
  destruct (split_snoc "." filename) as (nameParts & fmt & Hname).
  assert (∀ l, nth (length (init ++ [l]) - 1) (init ++ [l]) "" = l) as Hnth.
  { intros l. rewrite length_app. simpl.
    replace (length init + 1 - 1) with (length init) by lia.
    by rewrite nth_middle. }
  assert (∀ l, nth 1 (init ++ [l]) "" = nth 1 init "") as Hcat.
  { intros l. apply app_nth1. rewrite Hparts, length_app in Hlen.
    simpl in Hlen. lia. }
  rewrite (extractIconData_parts item itemPath nameParts fmt) in Hext;
    [|done|by rewrite Hparts, Hnth].
  case_bool_decide as Hempty; [done|]. injection Hext as <- <-.
  pose proof (split_trailing "/" item w init filename Hslash Hparts) as Hparts'.
  pose proof (split_trailing "." filename w nameParts fmt Hdot Hname) as Hname'.
  rewrite (extractIconData_parts (item +:+ w) itemPath nameParts (fmt +:+ w)).
  - rewrite bool_decide_eq_false_2.
    + by rewrite Hparts, Hparts', !Hcat.
    + intros [Hf|Hn]; [|tauto]. destruct fmt; [tauto | done].
  - rewrite Hparts', length_app. rewrite Hparts, length_app in Hlen. done.
  - by rewrite Hparts', Hnth.
Qed.

Lemma extractIconData_trailing_witness :
  extractIconData ("./Res_Compute/Amazon-EC2.png" +:+ String "013" "") "/ext/x"
  = (Some {| name := "Amazon-EC2"; category := "Res_Compute"; type := Resource;
             formats := []; path := "/ext/x" |}, "png" +:+ String "013" "").
Proof.
  apply extractIconData_trailing; [reflexivity|..];
    rewrite <- includes_spec; by vm_compute.
Defined.

(** ** What the loader looks at *)

(** The catalog depends on the file system only through the access to the
    asset directory, the content of the manifest, and the [stat] of the
    lines that start with a dot: two file systems that agree on these give
    the same catalog. *)
Theorem loadIconsData_reads_only (dirname : string) (fs fs' : FileSystem)
    (items : list string) :
  access fs (baseDir dirname) = access fs' (baseDir dirname) →
  readFile fs (Path.join [baseDir dirname; "find.txt"])
    = readFile fs' (Path.join [baseDir dirname; "find.txt"]) →
  manifest dirname fs = Some items →
  (∀ item, item ∈ items → JS.startsWith item "." = true →
           stat fs (Path.join [baseDir dirname; item])
           = stat fs' (Path.join [baseDir dirname; item])) →
  loadIconsData dirname fs = loadIconsData dirname fs'.
Proof.
  intros Hacc Hread Hman Hstat. rewrite !loadIconsData_unfold.
  unfold manifest in Hman. rewrite <- Hacc, <- Hread.
  destruct (access fs (baseDir dirname)) as [[]|e]; [|done].
  destruct (readFile fs _) as [content|e]; [|done].
  injection Hman as Hitems. rewrite Hitems. f_equal. f_equal.
  clear Hitems Hacc Hread. generalize (@nil AWSIcon).
  induction items as [|item items IH]; intros icons; [done|].
  rewrite !forOf_cons.
  assert (loadItem dirname fs item icons = loadItem dirname fs' item icons) as ->.
  { unfold loadItem. destruct (JS.startsWith item ".") eqn:Hm; [|done]. simpl.
    rewrite (Hstat item); [done | by left | done]. }
  destruct (loadItem dirname fs' item icons) as [[[]|e] icons']; [|done].
  apply IH. intros x Hx. apply Hstat. by right.
Qed.

Lemma loadIconsData_reads_only_witness :
  loadIconsData Sample.dirname
    {| access := λ p, Ok tt;
       readFile := readFile (Sample.fsWith "./Res_Compute/Amazon-EC2.png
Res_Compute");
       stat := λ p, if bool_decide (p = Sample.base +:+ "/Res_Compute/Amazon-EC2.png")
                    then Ok {| isFile := true |} else Throw (NodeError "EACCES") |}
  = loadIconsData Sample.dirname (Sample.fsWith "./Res_Compute/Amazon-EC2.png
Res_Compute").
Proof.
  symmetry.
  apply (loadIconsData_reads_only Sample.dirname _ _
           ["./Res_Compute/Amazon-EC2.png"; "Res_Compute"]);
    try reflexivity.
  intros item Hin Hm. rewrite !elem_of_cons, elem_of_nil in Hin.
  destruct Hin as [->|[->|[]]]; [reflexivity | discriminate Hm].
Defined.

(** ** The keys of the grid cells *)

Lemma app_inv_tail_s (a b c : string) : a +:+ c = b +:+ c → a = b.
Proof.
  intros H.
  assert (String.length a = String.length b) as Hlen.
  { apply (f_equal String.length) in H. rewrite !app_length_s in H. lia. }
  revert b H Hlen. induction a as [|x a IH]; intros [|y b] H Hlen;
    simpl in Hlen; try lia; [done|].
  rewrite !app_cons in H. injection H as -> H. f_equal. apply IH; [done|lia].
Qed.

Lemma typeString_dash_inj (t1 t2 : IconType) (x y : string) :
  typeString t1 +:+ "-" +:+ x = typeString t2 +:+ "-" +:+ y → t1 = t2 ∧ x = y.
Proof.
  destruct t1, t2; intros H; cbv in H; try congruence;
    (split; [done | congruence]).
Qed.

Section Keys.

Variable fs : FileSystem.
Variable clipboardCopy : string → result unit.
Variable clipboardAfterFailure : string → option string → option string.

(** Two cells with the same key have records of the same type whose name
    and category, joined by a dash, read the same.  The records are then the
    same logical icon if they share the category, or if neither category
    holds a dash; otherwise they need not be: "a" in "b-c" and "a-b" in "c"
    get the same key. *)
Theorem gridItem_key_collisions :
  (∀ r1 r2,
     key (gridItem fs clipboardCopy clipboardAfterFailure r1) = key (gridItem fs clipboardCopy clipboardAfterFailure r2) ↔
     type r1 = type r2 ∧
     name r1 +:+ "-" +:+ category r1 = name r2 +:+ "-" +:+ category r2) ∧
  (∀ r1 r2,
     key (gridItem fs clipboardCopy clipboardAfterFailure r1) = key (gridItem fs clipboardCopy clipboardAfterFailure r2) →
     category r1 = category r2 → iconKey r1 = iconKey r2) ∧
  (∀ r1 r2,
     key (gridItem fs clipboardCopy clipboardAfterFailure r1) = key (gridItem fs clipboardCopy clipboardAfterFailure r2) →
     ¬ Contains (category r1) "-" → ¬ Contains (category r2) "-" →
     iconKey r1 = iconKey r2) ∧
  (∃ r1 r2,
     iconKey r1 ≠ iconKey r2 ∧
     loadIconsData "/ext" (Sample.fsWith "./b-c/64/a.png
./c/64/a-b.png") = Ok [r1; r2] ∧
     key (gridItem fs clipboardCopy clipboardAfterFailure r1) = key (gridItem fs clipboardCopy clipboardAfterFailure r2)).
Proof.
  assert (∀ r1 r2,
     key (gridItem fs clipboardCopy clipboardAfterFailure r1) = key (gridItem fs clipboardCopy clipboardAfterFailure r2) ↔
     type r1 = type r2 ∧
     name r1 +:+ "-" +:+ category r1 = name r2 +:+ "-" +:+ category r2) as Hkey.
  { intros r1 r2. simpl. split.
    - by intros [-> ?]%typeString_dash_inj.
    - by intros [-> ->]. }
  split_and!; [done| | |].
  - intros r1 r2 [Ht Hnc]%Hkey Hc. unfold iconKey. rewrite Ht, Hc in *.
    by apply app_inv_tail_s in Hnc as ->.
  - intros r1 r2 [Ht Hnc]%Hkey Hc1 Hc2.
    apply (f_equal (JS.split "-")) in Hnc.
    change ("-" +:+ ?s) with (String "-" s) in Hnc.
    rewrite !split_app, !(split_without_sep "-" (category _)) in Hnc by done.
    apply app_inj_tail in Hnc as [Hn Hc].
    apply (f_equal (JS.join "-")) in Hn. rewrite !(join_split "-") in Hn.
    unfold iconKey. congruence.
  - eexists _, _. split; [|split; [by vm_compute|reflexivity]]. done.
Qed.

End Keys.

Lemma gridItem_key_collisions_witness :
  iconKey Sample.ec2 = iconKey (pushFormat Sample.ec2 "svg").
Proof.
  apply (gridItem_key_collisions (Sample.fsWith "") Sample.clipboardOk Sample.clipboardKept);
    [reflexivity|..]; rewrite <- includes_spec; by vm_compute.
Defined.
